(** * EvoViTAdapter: a shallow embedding of
      mmdet_custom/models/backbones/evovit_adapter.py

    The backbone is glue code: it pops four keys out of its keyword
    dictionary, builds its sub-modules, and in [forward] threads tensors
    through collaborators (the spatial prior module, the patch embedding,
    the interaction stages, the normalisations) and a dozen torch calls.

    The embedding keeps that shape.
    - Python values that are inspected by identity ([is False], [is None])
      are values of [pyval]; the keyword dictionary is a [gmap string pyval].
    - A tensor is its shape together with its contents read by index.  Only
      the logical contents are modelled: strides and storage sharing are not.
    - Every call of a torch function or of a collaborator is one [event] of
      the trace, tagged with the line of the source file that makes it, so
      that "nothing was computed" and "this line never ran" are statements
      about the trace.
    - A Python exception ends the computation: [M A] is a trace together
      with either an exception or a value. *)

From Stdlib Require Import ZArith QArith Qround Lia List String.
From stdpp Require Import base option list gmap strings.

Local Open Scope string_scope.
Local Open Scope list_scope.
Local Open Scope Z_scope.

(** ** Python values and exceptions *)

Inductive pyval : Type :=
| PyNone
| PyBool (b : bool)
| PyInt (z : Z)
| PyFloat (q : Q)
| PyStr (s : string).

(** [v is False]: identity with the singleton False.  The integer 0 is not
    False. *)
Definition is_False (v : pyval) : bool :=
  match v with PyBool false => true | _ => false end.

(** [v is None]. *)
Definition is_None (v : pyval) : bool :=
  match v with PyNone => true | _ => false end.

Inductive PyExc : Type :=
| AssertionError (msg : string)
| KeyError (key : string)
| IndexError
| TypeError
| ValueError
| RuntimeError
| NotImplementedError
| CollaboratorError (what : string).

Definition res (A : Type) : Type := PyExc + A.

Definition res_bind {A B} (r : res A) (f : A -> res B) : res B :=
  match r with inl e => inl e | inr a => f a end.

(** ** Python sequences *)

Module Py.

(** [l[i]] for an integer index: negative indices count from the end. *)
Definition getitem {A} (l : list A) (i : Z) : res A :=
  let n := Z.of_nat (length l) in
  let j := if i <? 0 then i + n else i in
  if (j <? 0) || (n <=? j) then inl IndexError
  else match l !! Z.to_nat j with
       | Some a => inr a
       | None => inl IndexError
       end.

(** Bound of a slice with step 1 on a sequence of length [n]
    (PySlice_AdjustIndices): add [n] to a negative bound, then clamp to
    [0, n]. *)
Definition clamp (n i : Z) : Z :=
  if i <? 0 then Z.max 0 (i + n) else Z.min i n.

(** [l[a:b]]. *)
Definition slice {A} (l : list A) (a b : Z) : list A :=
  let n := Z.of_nat (length l) in
  let lo := clamp n a in
  let hi := clamp n b in
  take (Z.to_nat (hi - lo)) (drop (Z.to_nat lo) l).

End Py.

(** ** Tensors *)

Section Tensors.

(** The scalar type of tensors and its addition (floating point in the
    program; nothing is assumed about it). *)
Context {T : Type}.
Variable scalar_add : T -> T -> T.

Record Tensor : Type := mkTensor {
  shape : list Z;
  at_ : list Z -> T
}.

Definition rank (t : Tensor) : nat := length (shape t).

Fixpoint numel (s : list Z) : Z :=
  match s with
  | [] => 1
  | d :: s' => d * numel s'
  end.

(** An index is in range for a shape when it has one coordinate per
    dimension, each within its bound. *)
Fixpoint in_range (s idx : list Z) : Prop :=
  match s, idx with
  | [], [] => True
  | d :: s', i :: idx' => 0 <= i < d /\ in_range s' idx'
  | _, _ => False
  end.

(** Two tensors are the same tensor when they have the same shape and the
    same element at every index of that shape. *)
Definition teq (a b : Tensor) : Prop :=
  shape a = shape b /\ forall idx, in_range (shape a) idx -> at_ a idx = at_ b idx.

(** [t.size(d)] for a non-negative [d]. *)
Definition size (t : Tensor) (d : nat) : res Z :=
  match shape t !! d with
  | Some n => inr n
  | None => inl IndexError
  end.

(** Row-major position of an index, and the index at a position. *)
Fixpoint ravel (s idx : list Z) : Z :=
  match s, idx with
  | d :: s', i :: idx' => i * numel s' + ravel s' idx'
  | _, _ => 0
  end.

Fixpoint unravel (s : list Z) (p : Z) : list Z :=
  match s with
  | [] => []
  | d :: s' => (p / numel s') :: unravel s' (p mod numel s')
  end.

(** *** Indexing: [t[k]], [t[:, a:b]], [t[:, a:b, :]] *)

(** [t[k]] with an integer: selects along the first dimension. *)
Definition select0 (t : Tensor) (k : Z) : res Tensor :=
  match shape t with
  | [] => inl IndexError
  | d :: s' =>
      let j := if k <? 0 then k + d else k in
      if (j <? 0) || (d <=? j) then inl IndexError
      else inr (mkTensor s' (fun idx => at_ t (j :: idx)))
  end.

(** [t[:, a:b]] when [subscripts] is 2 and [t[:, a:b, :]] when it is 3; a
    missing bound is [None].  More subscripts than dimensions is an
    IndexError. *)
Definition slice1 (subscripts : nat) (t : Tensor) (a b : option Z) : res Tensor :=
  if (rank t <? subscripts)%nat then inl IndexError
  else match shape t with
       | d0 :: n :: s' =>
           let lo := Py.clamp n (default 0 a) in
           let hi := Py.clamp n (default n b) in
           let len := Z.max 0 (hi - lo) in
           inr (mkTensor (d0 :: len :: s')
                  (fun idx => match idx with
                              | i :: j :: idx' => at_ t (i :: j + lo :: idx')
                              | _ => at_ t idx
                              end))
       | _ => inl IndexError
       end.

(** *** Broadcasting and addition *)

(** Broadcast of two shapes, both given last dimension first. *)
Fixpoint broadcast_rev (a b : list Z) : res (list Z) :=
  match a, b with
  | [], _ => inr b
  | _, [] => inr a
  | x :: a', y :: b' =>
      if x =? y then res_bind (broadcast_rev a' b') (fun s => inr (x :: s))
      else if x =? 1 then res_bind (broadcast_rev a' b') (fun s => inr (y :: s))
      else if y =? 1 then res_bind (broadcast_rev a' b') (fun s => inr (x :: s))
      else inl RuntimeError
  end.

Definition broadcast_shape (a b : list Z) : res (list Z) :=
  res_bind (broadcast_rev (rev a) (rev b)) (fun s => inr (rev s)).

(** The index an operand of shape [s] is read at, for an index of the
    broadcast result: its own trailing coordinates, with 0 along the
    dimensions of size 1. *)
Definition bidx (s idx : list Z) : list Z :=
  zip_with (fun d i => if d =? 1 then 0 else i) s
           (drop (length idx - length s)%nat idx).

(** [a + b]. *)
Definition add (a b : Tensor) : res Tensor :=
  res_bind (broadcast_shape (shape a) (shape b)) (fun s =>
  inr (mkTensor s (fun idx =>
         scalar_add (at_ a (bidx (shape a) idx)) (at_ b (bidx (shape b) idx))))).

(** [t.expand(s0, s1, ...)]: -1 keeps a dimension; a dimension of size 1 is
    repeated; new leading dimensions may not be -1. *)
Fixpoint expand_rev (s sizes : list Z) : res (list Z) :=
  match sizes with
  | [] => match s with [] => inr [] | _ => inl RuntimeError end
  | z :: sizes' =>
      match s with
      | [] => if z <? 0 then inl RuntimeError
              else res_bind (expand_rev [] sizes') (fun r => inr (z :: r))
      | d :: s' =>
          if (z =? -1) || (z =? d)
          then res_bind (expand_rev s' sizes') (fun r => inr (d :: r))
          else if (d =? 1) && (0 <=? z)
          then res_bind (expand_rev s' sizes') (fun r => inr (z :: r))
          else inl RuntimeError
      end
  end.

Definition expand (t : Tensor) (sizes : list Z) : res Tensor :=
  res_bind (expand_rev (rev (shape t)) (rev sizes)) (fun r =>
  inr (mkTensor (rev r) (fun idx => at_ t (bidx (shape t) idx)))).

(** *** Concatenation along dimension 1 *)

Definition dim1 (t : Tensor) : Z := nth 1 (shape t) 0.

Fixpoint cat1_at (t0 : Tensor) (rest : list Tensor) (idx : list Z) : T :=
  match rest with
  | [] => at_ t0 idx
  | t1 :: rest' =>
      match idx with
      | i :: j :: idx' =>
          if j <? dim1 t0 then at_ t0 idx
          else cat1_at t1 rest' (i :: j - dim1 t0 :: idx')
      | _ => at_ t0 idx
      end
  end.

Definition shape_eqb (a b : list Z) : bool :=
  bool_decide (a = b).

(** [torch.cat(ts, dim=1)].  Tensors of shape [0] are skipped (torch keeps
    this for legacy code); the others must agree on every dimension but
    dimension 1. *)
Definition cat1 (ts : list Tensor) : res Tensor :=
  match ts with
  | [] => inl RuntimeError
  | first :: _ =>
      match filter (fun t => shape t <> [0]) ts with
      | [] => inr first
      | t0 :: rest =>
          match shape t0 with
          | d0 :: n0 :: s' =>
              if forallb (fun t => match shape t with
                                   | d :: _ :: s'' => (d =? d0) && shape_eqb s'' s'
                                   | _ => false
                                   end) rest
              then inr (mkTensor (d0 :: foldr (fun t acc => dim1 t + acc) 0 (t0 :: rest) :: s')
                                 (cat1_at t0 rest))
              else inl RuntimeError
          | _ => inl IndexError
          end
      end
  end.

(** *** Reshaping *)

(** Sizes given to [reshape] or [view], with at most one -1 that is
    inferred from the number of elements. *)
Definition infer_sizes (n : Z) (sizes : list Z) : res (list Z) :=
  if existsb (fun z => z <? -1) sizes then inl RuntimeError
  else
    let known := filter (fun z => z <> -1) sizes in
    let p := numel known in
    match (length sizes - length known)%nat with
    | O => if p =? n then inr sizes else inl RuntimeError
    | S O =>
        if (p =? 0) || negb (n mod p =? 0) then inl RuntimeError
        else inr (map (fun z => if z =? -1 then n / p else z) sizes)
    | _ => inl RuntimeError
    end.

(** [t.reshape(s0, s1, ...)]: same elements in row-major order. *)
Definition reshape (t : Tensor) (sizes : list Z) : res Tensor :=
  res_bind (infer_sizes (numel (shape t)) sizes) (fun s =>
  inr (mkTensor s (fun idx => at_ t (unravel (shape t) (ravel s idx))))).

(** [t.view(s0, s1, ...)].  On the logical contents a view is a reshape; the
    additional condition torch puts on the strides of [t] belongs to the
    memory layout and is not modelled. *)
Definition view (t : Tensor) (sizes : list Z) : res Tensor :=
  reshape t sizes.

(** [t.contiguous()]: the same logical tensor. *)
Definition contiguous (t : Tensor) : Tensor := t.

(** Position of [j] in [dims]. *)
Fixpoint index_of (j : nat) (dims : list nat) : option nat :=
  match dims with
  | [] => None
  | d :: dims' => if (d =? j)%nat then Some O else S <$> index_of j dims'
  end.

(** [t.permute(d0, d1, ...)]: [dims] must name every dimension once. *)
Definition permute (t : Tensor) (dims : list nat) : res Tensor :=
  let r := rank t in
  if negb (length dims =? r)%nat
     || negb (forallb (fun j => bool_decide (is_Some (index_of j dims))) (seq 0 r))
  then inl RuntimeError
  else inr (mkTensor (map (fun d => nth d (shape t) 0) dims)
              (fun idx => at_ t (map (fun j => nth (default O (index_of j dims)) idx 0)
                                     (seq 0 r)))).

(** [t.transpose(d0, d1)]. *)
Definition swap (d0 d1 : nat) (l : list Z) : list Z :=
  <[d0 := nth d1 l 0]> (<[d1 := nth d0 l 0]> l).

Definition transpose (t : Tensor) (d0 d1 : nat) : res Tensor :=
  if (d0 <? rank t)%nat && (d1 <? rank t)%nat
  then inr (mkTensor (swap d0 d1 (shape t)) (fun idx => at_ t (swap d0 d1 idx)))
  else inl IndexError.

(** [b, n, d = t.shape]. *)
Definition unpack3 (t : Tensor) : res (Z * Z * Z) :=
  match shape t with
  | [b; n; d] => inr (b, n, d)
  | _ => inl ValueError
  end.

(** *** Resampling

    [F.interpolate] on a 4-D tensor.  The shape of the result is torch's;
    the resampled values are a parameter. *)

Inductive interp_mode : Type := Bicubic | Bilinear.

Variable interp_values : interp_mode -> Tensor -> Z * Z -> list Z -> T.

Definition interpolate_to (mode : interp_mode) (t : Tensor) (h w : Z) : res Tensor :=
  match shape t with
  | [n; c; hin; win] =>
      if (0 <? c) && (0 <? hin) && (0 <? win) && (0 <? h) && (0 <? w)
      then inr (mkTensor [n; c; h; w] (interp_values mode t (h, w)))
      else inl RuntimeError
  | _ => inl ValueError
  end.

(** [F.interpolate(t, size=(h, w), mode=..., align_corners=False)]. *)
Definition interpolate_size := interpolate_to.

(** [F.interpolate(t, scale_factor=q, mode=..., align_corners=False)]:
    each spatial size becomes the floor of its product with [q]. *)
Definition interpolate_scale (mode : interp_mode) (t : Tensor) (q : Q) : res Tensor :=
  match shape t with
  | [n; c; hin; win] =>
      interpolate_to mode t (Qfloor (inject_Z hin * q)) (Qfloor (inject_Z win * q))
  | _ => inl NotImplementedError
  end.

End Tensors.

Arguments Tensor T : clear implicits.

(** ** Traces and exceptions: the monad of the embedding *)

Section Monad.

Context {Ev : Type}.

Definition M (A : Type) : Type := (list Ev * res A)%type.

Definition ret {A} (a : A) : M A := ([], inr a).

Definition bind {A B} (m : M A) (f : A -> M B) : M B :=
  match m with
  | (tr, inl e) => (tr, inl e)
  | (tr, inr a) => let '(tr', r) := f a in (tr ++ tr', r)
  end.

Definition raise {A} (e : PyExc) : M A := ([], inl e).

(** A Python computation that touches no tensor and calls no
    collaborator: it can raise, it leaves no event. *)
Definition lift {A} (r : res A) : M A := ([], r).

(** One call, leaving one event. *)
Definition call {A} (e : Ev) (r : res A) : M A := ([e], r).

(** [assert cond, msg]. *)
Definition assert_ (cond : bool) (msg : string) : M unit :=
  if cond then ret tt else raise (AssertionError msg).

Definition trace {A} (m : M A) : list Ev := fst m.
Definition outcome {A} (m : M A) : res A := snd m.

(** The computation ended without an exception. *)
Definition returns {A} (m : M A) : bool :=
  match outcome m with inr _ => true | inl _ => false end.

(** What it returned, or [d]. *)
Definition value {A} (d : A) (m : M A) : A :=
  match outcome m with inr a => a | inl _ => d end.

End Monad.

Arguments M Ev A : clear implicits.

Notation "'let*' x ':=' m 'in' k" := (bind m (fun x => k))
  (at level 10, x pattern, m at level 100, k at level 200).

(** ** Arguments of the constructor *)

Module Args.

Record t : Type := mk {
  pretrain_size : Z;
  num_heads : Z;
  conv_inplane : Z;
  n_points : Z;
  deform_num_heads : Z;
  init_values : Q;
  interaction_indexes : option (list (list Z));
  with_cffn : bool;
  cffn_ratio : Q;
  deform_ratio : Q;
  add_vit_feature : bool;
  use_extra_extractor : bool;
  args : list pyval;
  kwargs : gmap string pyval
}.

(** The same call with another keyword dictionary. *)
Definition with_kwargs (a : t) (kw : gmap string pyval) : t :=
  mk (pretrain_size a) (num_heads a) (conv_inplane a) (n_points a)
     (deform_num_heads a) (init_values a) (interaction_indexes a)
     (with_cffn a) (cffn_ratio a) (deform_ratio a) (add_vit_feature a)
     (use_extra_extractor a) (args a) kw.

(** The same call with another [interaction_indexes]. *)
Definition with_indexes (a : t) (ixs : option (list (list Z))) : t :=
  mk (pretrain_size a) (num_heads a) (conv_inplane a) (n_points a)
     (deform_num_heads a) (init_values a) ixs
     (with_cffn a) (cffn_ratio a) (deform_ratio a) (add_vit_feature a)
     (use_extra_extractor a) (args a) (kwargs a).

(** The defaults of the signature (lines 21-23). *)
Definition defaults (kw : gmap string pyval) : t :=
  mk 224 12 64 4 6 0%Q None true (1 # 4)%Q 1%Q true true [] kw.

End Args.

(** ** The collaborators

    What the file imports and does not define: the base class
    [EvoVisionTransformer], [SpatialPriorModule], [InteractionBlockForEvo]
    and [deform_inputs] of this repository, and the numerical kernels of
    torch.  They are parameters of the embedding.  A module is a handle of
    type [Module]; what it computes is given by the [*_forward] functions.
    Constructors are functions of their arguments: the state of the random
    generator is not modelled.  [apply_init_weights m] is [m] after
    [m.apply(self._init_weights)] and [apply_init_deform_weights m] is [m]
    after [m.apply(self._init_deform_weights)]; the numerical recipes of
    lines 67-80 and 89-91 are not part of the embedding. *)

Section Backbone.

Context {T Module DeformInputs : Type}.

(** The classification-attention accumulator is the Python integer 0 at
    first, and whatever the stages return afterwards. *)
Inductive ClsAttn : Type :=
| CA_int (z : Z)
| CA_tensor (t : Tensor T).

(** What the adapter reads of the state its base class builds. *)
Record Base : Type := mkBase {
  blocks : list Module;
  norms : list Module;
  vs : list Module;
  qks : list Module;
  projs : list Module;
  patch_embed : Module;
  pos_drop : Module;
  cls_token : Tensor T;
  pos_embed : Tensor T;
  embed_dim : Z;
  drop_path_rate : Q;
  norm_layer : Module;
  prune_ratio : pyval;
  tradeoff : pyval
}.

(** Arguments of [InteractionBlockForEvo(...)]. *)
Record InteractionConfig : Type := mkInteractionConfig {
  ic_dim : Z;
  ic_num_heads : Z;
  ic_n_points : Z;
  ic_init_values : Q;
  ic_drop_path : Q;
  ic_norm_layer : Module;
  ic_with_cffn : bool;
  ic_cffn_ratio : Q;
  ic_deform_ratio : Q;
  ic_extra_extractor : bool
}.

(** Arguments of one call of an interaction stage (lines 121-124). *)
Record LayerArgs : Type := mkLayerArgs {
  la_cls_token : Tensor T;
  la_x : Tensor T;
  la_c : Tensor T;
  la_indexes : list Z;
  la_blocks : list Module;
  la_norms : list Module;
  la_vs : list Module;
  la_qks : list Module;
  la_projs : list Module;
  la_deform_inputs1 : DeformInputs;
  la_deform_inputs2 : DeformInputs;
  la_H : Z;
  la_W : Z;
  la_prune_ratio : pyval;
  la_tradeoff : pyval;
  la_cls_attn : ClsAttn
}.

Record Collaborators : Type := mkCollaborators {
  (* scalars *)
  scalar_zero : T;
  scalar_add : T -> T -> T;
  (* torch kernels: values only, the shapes are in the model *)
  interp_values : interp_mode -> Tensor T -> Z * Z -> list Z -> T;
  conv_transpose_values : Module -> Tensor T -> list Z -> T;
  normal_values : Tensor T -> list Z -> T;
  (* construction *)
  EvoVisionTransformer_init : Z -> list pyval -> gmap string pyval -> res Base;
  SpatialPriorModule_init : Z -> Z -> res Module;
  InteractionBlockForEvo_init : InteractionConfig -> res Module;
  ConvTranspose2d_params : Z -> Z -> Z * Z -> Z * Z -> res Module;
  SyncBatchNorm_init : Z -> res Module;
  apply_init_weights : Module -> Module;
  apply_init_deform_weights : Module -> Module;
  (* forward *)
  deform_inputs : Tensor T -> res (DeformInputs * DeformInputs);
  spm_forward : Module -> Tensor T -> res (Tensor T * Tensor T * Tensor T * Tensor T);
  patch_embed_forward : Module -> Tensor T -> res (Tensor T * Z * Z);
  module_forward : Module -> Tensor T -> res (Tensor T);
  layer_forward : Module -> LayerArgs -> res (Tensor T * Tensor T * Tensor T * ClsAttn)
}.

(** *** [nn.ConvTranspose2d] *)

Record ConvTranspose2d : Type := mkConvTranspose2d {
  in_channels : Z;
  out_channels : Z;
  kernel_size : Z * Z;
  stride : Z * Z;
  padding : Z * Z;
  output_padding : Z * Z;
  dilation : Z * Z;
  ct_params : Module
}.

(** Size of one spatial dimension of the result (torch documentation of
    ConvTranspose2d). *)
Definition conv_transpose_out (n s p d k op : Z) : Z :=
  (n - 1) * s - 2 * p + d * (k - 1) + op + 1.

Definition conv_transpose_hw (m : ConvTranspose2d) (h w : Z) : Z * Z :=
  (conv_transpose_out h (fst (stride m)) (fst (padding m)) (fst (dilation m))
                      (fst (kernel_size m)) (fst (output_padding m)),
   conv_transpose_out w (snd (stride m)) (snd (padding m)) (snd (dilation m))
                      (snd (kernel_size m)) (snd (output_padding m))).

Variable E : Collaborators.

Definition ConvTranspose2d_forward (m : ConvTranspose2d) (t : Tensor T) : res (Tensor T) :=
  match shape t with
  | [n; c; h; w] =>
      let '(h', w') := conv_transpose_hw m h w in
      if (c =? in_channels m) && (0 <=? h') && (0 <=? w')
      then inr (mkTensor [n; out_channels m; h'; w'] (conv_transpose_values E (ct_params m) t))
      else inl RuntimeError
  | [c; h; w] =>
      let '(h', w') := conv_transpose_hw m h w in
      if (c =? in_channels m) && (0 <=? h') && (0 <=? w')
      then inr (mkTensor [out_channels m; h'; w'] (conv_transpose_values E (ct_params m) t))
      else inl RuntimeError
  | _ => inl RuntimeError
  end.

(** ** Events *)

Inductive op : Type :=
(* construction *)
| New_base
| New_parameter
| New_spm
| New_interaction (i : nat) (extra_extractor : bool)
| New_conv_transpose
| New_norm (k : nat)
| Init_weights
| Init_deform_weights
| Init_normal
(* collaborators called by forward *)
| Call_deform_inputs
| Call_spm
| Call_patch_embed
| Call_pos_drop
| Call_layer (i : nat) (args : LayerArgs)
| Call_up
| Call_norm (k : nat)
(* torch *)
| Torch_select
| Torch_slice
| Torch_add
| Torch_cat
| Torch_expand
| Torch_reshape
| Torch_permute
| Torch_transpose
| Torch_view
| Torch_contiguous
| Torch_interpolate (mode : interp_mode).

(** An event: the line of evovit_adapter.py that makes the call, and the
    call. *)
Record event : Type := Ev { line : nat; what : op }.

Definition at_line {A} (l : nat) (o : op) (r : res A) : M event A :=
  call (Ev l o) r.

Local Abbreviation M := (M event).

(** ** The class *)

Record EvoViTAdapter : Type := mkEvoViTAdapter {
  base : Base;
  norm : option Module;
  head_ : option Module;
  norm_cls : option Module;
  head_cls : option Module;
  stage_wise_prune : pyval;
  num_classes : Z;
  num_block : Z;
  pretrain_size : Z * Z;
  interaction_indexes : option (list (list Z));
  add_vit_feature : bool;
  level_embed : Tensor T;
  spm : Module;
  interactions : list Module;
  up : ConvTranspose2d;
  norm1 : Module;
  norm2 : Module;
  norm3 : Module;
  norm4 : Module
}.

(** *** [__init__] (lines 21-65) *)

(** [kwargs.pop(k)]: the value and the dictionary without the key, or
    KeyError. *)
Definition pop (kw : gmap string pyval) (k : string) : M (pyval * gmap string pyval) :=
  match kw !! k with
  | Some v => ret (v, delete k kw)
  | None => raise (KeyError k)
  end.

(** [len(interaction_indexes)]; None has no length. *)
Definition len_indexes (ix : option (list (list Z))) : res nat :=
  match ix with
  | Some l => inr (length l)
  | None => inl TypeError
  end.

(** Lines 48-53: one stage per entry of [interaction_indexes], the last
    one with the extra extractor when [use_extra_extractor]. *)
Definition interaction_config (a : Args.t) (b : Base) (n i : nat) : InteractionConfig :=
  mkInteractionConfig (embed_dim b) (Args.deform_num_heads a) (Args.n_points a)
    (Args.init_values a) (drop_path_rate b) (norm_layer b)
    (Args.with_cffn a) (Args.cffn_ratio a) (Args.deform_ratio a)
    ((Z.of_nat i =? Z.of_nat n - 1) && Args.use_extra_extractor a).

Fixpoint build_interactions (cfg : nat -> InteractionConfig) (i count : nat)
  : M (list Module) :=
  match count with
  | O => ret []
  | S count' =>
      let* m := at_line 48 (New_interaction i (ic_extra_extractor (cfg i)))
                  (InteractionBlockForEvo_init E (cfg i)) in
      let* ms := build_interactions cfg (S i) count' in
      ret (m :: ms)
  end.

(** [torch.zeros(3, embed_dim)]. *)
Definition zeros (s : list Z) : res (Tensor T) :=
  if existsb (fun d => d <? 0) s then inl RuntimeError
  else inr (mkTensor s (fun _ => scalar_zero E)).

(** [normal_(t)]: same shape, fresh values. *)
Definition normal_ (t : Tensor T) : Tensor T :=
  mkTensor (shape t) (normal_values E t).

(** [self.apply(f)] as far as the modules of the base class go. *)
Definition base_apply (f : Module -> Module) (b : Base) : Base :=
  mkBase (map f (blocks b)) (map f (norms b)) (map f (vs b)) (map f (qks b))
         (map f (projs b)) (f (patch_embed b)) (f (pos_drop b))
         (cls_token b) (pos_embed b) (embed_dim b) (drop_path_rate b)
         (norm_layer b) (prune_ratio b) (tradeoff b).

Definition __init__ (a : Args.t) : M EvoViTAdapter :=
  let* (_, kw) := pop (Args.kwargs a) "window_attn" in
  let* (_, kw) := pop kw "window_size" in
  let* (layer_scale, kw) := pop kw "layer_scale" in
  let* _ := assert_ (is_False layer_scale)
              "Pytorch Better Transformer does not support layer scale" in
  let* (pretrained, kw) := pop kw "pretrained" in
  let* _ := assert_ (is_None pretrained) "use load_from instead of pretrained" in
  let* b := at_line 29 New_base
              (EvoVisionTransformer_init E (Args.num_heads a) (Args.args a) kw) in
  let embed_dim := embed_dim b in
  let* level_embed := at_line 44 New_parameter (zeros [3; embed_dim]) in
  let* spm := at_line 45 New_spm
                (SpatialPriorModule_init E (Args.conv_inplane a) embed_dim) in
  let* n := lift (len_indexes (Args.interaction_indexes a)) in
  let* interactions := build_interactions (interaction_config a b n) 0 n in
  let* up_params := at_line 55 New_conv_transpose
                      (ConvTranspose2d_params E embed_dim embed_dim (2, 2) (2, 2)) in
  let* norm1 := at_line 56 (New_norm 1) (SyncBatchNorm_init E embed_dim) in
  let* norm2 := at_line 57 (New_norm 2) (SyncBatchNorm_init E embed_dim) in
  let* norm3 := at_line 58 (New_norm 3) (SyncBatchNorm_init E embed_dim) in
  let* norm4 := at_line 59 (New_norm 4) (SyncBatchNorm_init E embed_dim) in
  let* up_params := at_line 61 Init_weights (inr (apply_init_weights E up_params)) in
  let* spm := at_line 62 Init_weights (inr (apply_init_weights E spm)) in
  let* interactions := at_line 63 Init_weights
                         (inr (map (apply_init_weights E) interactions)) in
  let f := apply_init_deform_weights E in
  let* _ := at_line 64 Init_deform_weights (inr tt) in
  let* level_embed := at_line 65 Init_normal (inr (normal_ level_embed)) in
  ret {| base := base_apply f b;
         norm := None;
         head_ := None;
         norm_cls := None;
         head_cls := None;
         stage_wise_prune := PyBool false;
         num_classes := 80;
         num_block := Z.of_nat (length (blocks b));
         pretrain_size := (Args.pretrain_size a, Args.pretrain_size a);
         interaction_indexes := Args.interaction_indexes a;
         add_vit_feature := Args.add_vit_feature a;
         level_embed := level_embed;
         spm := f spm;
         interactions := map f interactions;
         up := mkConvTranspose2d embed_dim embed_dim (2, 2) (2, 2) (0, 0) (0, 0) (1, 1)
                 up_params;
         norm1 := norm1;
         norm2 := norm2;
         norm3 := norm3;
         norm4 := norm4 |}.

(** *** [_get_pos_embed] (lines 82-87) *)

Definition _get_pos_embed (self : EvoViTAdapter) (pos_embed : Tensor T) (H W : Z)
  : M (Tensor T) :=
  let* t := at_line 83 Torch_reshape
              (reshape pos_embed [1; fst (pretrain_size self) / 16;
                                  snd (pretrain_size self) / 16; -1]) in
  let* t := at_line 84 Torch_permute (permute t [0; 3; 1; 2]%nat) in
  let* t := at_line 85 (Torch_interpolate Bicubic)
              (interpolate_size (interp_values E) Bicubic t H W) in
  let* t := at_line 86 Torch_reshape (reshape t [1; -1; H * W]) in
  at_line 86 Torch_permute (permute t [0; 2; 1]%nat).

(** *** [_add_level_embed] (lines 93-97) *)

Definition _add_level_embed (self : EvoViTAdapter) (c2 c3 c4 : Tensor T)
  : M (Tensor T * Tensor T * Tensor T) :=
  let* e := at_line 94 Torch_select (select0 (level_embed self) 0) in
  let* c2 := at_line 94 Torch_add (add (scalar_add E) c2 e) in
  let* e := at_line 95 Torch_select (select0 (level_embed self) 1) in
  let* c3 := at_line 95 Torch_add (add (scalar_add E) c3 e) in
  let* e := at_line 96 Torch_select (select0 (level_embed self) 2) in
  let* c4 := at_line 96 Torch_add (add (scalar_add E) c4 e) in
  ret (c2, c3, c4).

(** *** [forward] (lines 99-148) *)

(** What the loop of lines 119-124 carries from one stage to the next. *)
Definition LoopState : Type := (Tensor T * Tensor T * Tensor T * ClsAttn)%type.

(** [self.interaction_indexes[i]]. *)
Definition indexes_at (self : EvoViTAdapter) (i : nat) : res (list Z) :=
  match interaction_indexes self with
  | None => inl TypeError
  | Some l => Py.getitem l (Z.of_nat i)
  end.

(** Lines 119-124, from stage [i] on; [layers] is what is left of
    [enumerate(self.interactions)]. *)
Fixpoint interaction_loop (self : EvoViTAdapter) (d1 d2 : DeformInputs) (H W : Z)
    (i : nat) (layers : list Module) (st : LoopState) : M LoopState :=
  match layers with
  | [] => ret st
  | layer :: layers' =>
      let '(cls_token, x, c, cls_attn) := st in
      let* indexes := lift (indexes_at self i) in
      let* lo := lift (Py.getitem indexes 0) in
      let* hi := lift (Py.getitem indexes (-1)) in
      let b := base self in
      let args :=
        mkLayerArgs cls_token x c indexes
          (Py.slice (blocks b) lo (hi + 1)) (Py.slice (norms b) lo (hi + 1))
          (Py.slice (vs b) lo (hi + 1)) (Py.slice (qks b) lo (hi + 1))
          (Py.slice (projs b) lo (hi + 1))
          d1 d2 H W (prune_ratio b) (tradeoff b) cls_attn in
      let* st' := at_line 121 (Call_layer i args) (layer_forward E layer args) in
      interaction_loop self d1 d2 H W (S i) layers' st'
  end.

(** Lines 127-129.  Each line rebinds a name the next line reads:
    [c2.size(1)] of line 128 is the size of the slice made by line 127. *)
Definition split_levels (c c2 c3 : Tensor T) : M (Tensor T * Tensor T * Tensor T) :=
  let* n2 := lift (size c2 1) in
  let* c2 := at_line 127 Torch_slice (slice1 3 c (Some 0) (Some n2)) in
  let* n2 := lift (size c2 1) in
  let* n3 := lift (size c3 1) in
  let* c3 := at_line 128 Torch_slice (slice1 3 c (Some n2) (Some (n2 + n3))) in
  let* n2 := lift (size c2 1) in
  let* n3 := lift (size c3 1) in
  let* c4 := at_line 129 Torch_slice (slice1 3 c (Some (n2 + n3)) None) in
  ret (c2, c3, c4).

(** [t.transpose(1, 2).view(bs, dim, h, w).contiguous()] *)
Definition to_spatial (ln : nat) (t : Tensor T) (bs dim h w : Z) : M (Tensor T) :=
  let* t := at_line ln Torch_transpose (transpose t 1 2) in
  let* t := at_line ln Torch_view (view t [bs; dim; h; w]) in
  at_line ln Torch_contiguous (inr (contiguous t)).

(** Lines 131-133. *)
Definition reshape_levels (c2 c3 c4 : Tensor T) (bs dim H W : Z)
  : M (Tensor T * Tensor T * Tensor T) :=
  let* c2 := to_spatial 131 c2 bs dim (H * 2) (W * 2) in
  let* c3 := to_spatial 132 c3 bs dim H W in
  let* c4 := to_spatial 133 c4 bs dim (H / 2) (W / 2) in
  ret (c2, c3, c4).

(** Lines 126-134: the four conv-derived levels. *)
Definition reassemble (self : EvoViTAdapter) (c c1 c2 c3 : Tensor T) (bs dim H W : Z)
  : M (Tensor T * Tensor T * Tensor T * Tensor T) :=
  let* (c2, c3, c4) := split_levels c c2 c3 in
  let* (c2, c3, c4) := reshape_levels c2 c3 c4 bs dim H W in
  let* u := at_line 134 Call_up (ConvTranspose2d_forward (up self) c2) in
  let* c1 := at_line 134 Torch_add (add (scalar_add E) u c1) in
  ret (c1, c2, c3, c4).

(** Lines 136-141. *)
Definition add_vit_features (self : EvoViTAdapter) (x c1 c2 c3 c4 : Tensor T)
    (bs dim H W : Z) : M (Tensor T * Tensor T * Tensor T * Tensor T) :=
  if add_vit_feature self then
    let* x3 := to_spatial 137 x bs dim H W in
    let* x1 := at_line 138 (Torch_interpolate Bilinear)
                 (interpolate_scale (interp_values E) Bilinear x3 4%Q) in
    let* x2 := at_line 139 (Torch_interpolate Bilinear)
                 (interpolate_scale (interp_values E) Bilinear x3 2%Q) in
    let* x4 := at_line 140 (Torch_interpolate Bilinear)
                 (interpolate_scale (interp_values E) Bilinear x3 (1 # 2)%Q) in
    let* c1 := at_line 141 Torch_add (add (scalar_add E) c1 x1) in
    let* c2 := at_line 141 Torch_add (add (scalar_add E) c2 x2) in
    let* c3 := at_line 141 Torch_add (add (scalar_add E) c3 x3) in
    let* c4 := at_line 141 Torch_add (add (scalar_add E) c4 x4) in
    ret (c1, c2, c3, c4)
  else ret (c1, c2, c3, c4).

(** Lines 144-148. *)
Definition final_norm (self : EvoViTAdapter) (c1 c2 c3 c4 : Tensor T)
  : M (list (Tensor T)) :=
  let* f1 := at_line 144 (Call_norm 1) (module_forward E (norm1 self) c1) in
  let* f2 := at_line 145 (Call_norm 2) (module_forward E (norm2 self) c2) in
  let* f3 := at_line 146 (Call_norm 3) (module_forward E (norm3 self) c3) in
  let* f4 := at_line 147 (Call_norm 4) (module_forward E (norm4 self) c4) in
  ret [f1; f2; f3; f4].

(** What lines 100-114 leave for the rest of [forward]. *)
Record Prepared : Type := mkPrepared {
  p_deform_inputs1 : DeformInputs;
  p_deform_inputs2 : DeformInputs;
  p_c1 : Tensor T;         (* the finest level of the spatial prior module *)
  p_c2 : Tensor T;         (* c2 and c3 as line 105 left them *)
  p_c3 : Tensor T;
  p_c : Tensor T;          (* the conv sequence of line 106 *)
  p_cls_token : Tensor T;
  p_x : Tensor T;          (* the token sequence of line 114 *)
  p_bs : Z;
  p_dim : Z;
  p_H : Z;
  p_W : Z
}.

(** Lines 100-114. *)
Definition prepare (self : EvoViTAdapter) (x : Tensor T) : M Prepared :=
  let* _ := assert_ (is_False (stage_wise_prune self))
              "Stage-wise prune not implemented in InteractionBlockForEvo" in
  let* (deform_inputs1, deform_inputs2) :=
    at_line 101 Call_deform_inputs (deform_inputs E x) in
  let* (c1, c2, c3, c4) := at_line 104 Call_spm (spm_forward E (spm self) x) in
  let* (c2, c3, c4) := _add_level_embed self c2 c3 c4 in
  let* c := at_line 106 Torch_cat (cat1 [c2; c3; c4]) in
  let* (x, H, W) :=
    at_line 109 Call_patch_embed (patch_embed_forward E (patch_embed (base self)) x) in
  let* (bs, n, dim) := lift (unpack3 x) in
  let* cls_token := at_line 111 Torch_expand (expand (cls_token (base self)) [bs; -1; -1]) in
  let* pe := at_line 112 Torch_slice (slice1 2 (pos_embed (base self)) None (Some 1)) in
  let* t := at_line 112 Torch_add (add (scalar_add E) cls_token pe) in
  let* cls_token := at_line 112 Call_pos_drop (module_forward E (pos_drop (base self)) t) in
  let* pe := at_line 113 Torch_slice (slice1 2 (pos_embed (base self)) (Some 1) None) in
  let* pos_embed := _get_pos_embed self pe H W in
  let* t := at_line 114 Torch_add (add (scalar_add E) x pos_embed) in
  let* x := at_line 114 Call_pos_drop (module_forward E (pos_drop (base self)) t) in
  ret (mkPrepared deform_inputs1 deform_inputs2 c1 c2 c3 c cls_token x bs dim H W).

Definition forward (self : EvoViTAdapter) (x : Tensor T) : M (list (Tensor T)) :=
  let* p := prepare self x in
  let cls_attn := CA_int 0 in
  let* (cls_token, x, c, cls_attn) :=
    interaction_loop self (p_deform_inputs1 p) (p_deform_inputs2 p) (p_H p) (p_W p)
                     0 (interactions self) (p_cls_token p, p_x p, p_c p, cls_attn) in
  let* (c1, c2, c3, c4) :=
    reassemble self c (p_c1 p) (p_c2 p) (p_c3 p) (p_bs p) (p_dim p) (p_H p) (p_W p) in
  let* (c1, c2, c3, c4) :=
    add_vit_features self x c1 c2 c3 c4 (p_bs p) (p_dim p) (p_H p) (p_W p) in
  final_norm self c1 c2 c3 c4.

End Backbone.

Arguments ClsAttn T : clear implicits.
Arguments Base T Module : clear implicits.
Arguments InteractionConfig Module : clear implicits.
Arguments LayerArgs T Module DeformInputs : clear implicits.
Arguments Collaborators T Module DeformInputs : clear implicits.
Arguments ConvTranspose2d Module : clear implicits.
Arguments op T Module DeformInputs : clear implicits.
Arguments event T Module DeformInputs : clear implicits.
Arguments EvoViTAdapter T Module : clear implicits.
Arguments Prepared T DeformInputs : clear implicits.
Arguments LoopState T : clear implicits.

(** ** Reading a trace *)

Section Traces.

Context {T Module DeformInputs : Type}.

Local Abbreviation event := (event T Module DeformInputs).

(** The calls of interaction stages, in the order they were made. *)
Fixpoint layer_calls (tr : list event) : list (nat * LayerArgs T Module DeformInputs) :=
  match tr with
  | [] => []
  | Ev _ (Call_layer i args) :: tr' => (i, args) :: layer_calls tr'
  | _ :: tr' => layer_calls tr'
  end.

(** The transformer blocks handed to the stages, in call order. *)
Definition blocks_run (tr : list event) : list Module :=
  concat (map (fun ia => la_blocks (snd ia)) (layer_calls tr)).

(** The accumulator each stage was called with, in call order. *)
Definition cls_attn_inputs (tr : list event) : list (ClsAttn T) :=
  map (fun ia => la_cls_attn (snd ia)) (layer_calls tr).

Definition is_layer_call (e : event) : bool :=
  match what e with
  | Call_layer _ _ => true
  | _ => false
  end.

Variable E : Collaborators T Module DeformInputs.

(** The calls [calls] thread the accumulator through the stages [layers],
    starting at stage [i] with the accumulator [ca]: each call is made
    with the accumulator the previous stage returned, and a stage that
    raises is the last one called. *)
Fixpoint threaded (layers : list Module) (i : nat) (ca : ClsAttn T)
    (calls : list (nat * LayerArgs T Module DeformInputs)) {struct calls} : Prop :=
  match calls with
  | [] => True
  | (j, a) :: rest =>
      match layers with
      | [] => False
      | m :: layers' =>
          j = i /\ la_cls_attn a = ca
          /\ match layer_forward E m a with
             | inr (_, _, _, ca') => threaded layers' (S i) ca' rest
             | inl _ => rest = []
             end
      end
  end.

Definition is_bilinear (e : event) : bool :=
  match what e with
  | Torch_interpolate Bilinear => true
  | _ => false
  end.

(** The event comes from the block of lines 136-141 of [forward]. *)
Definition in_vit_feature_block (e : event) : bool :=
  (136 <=? line e)%nat && (line e <=? 141)%nat.

End Traces.

(** ** Valid partitions of the block list *)

(** Number of blocks a stage is given: [indexes[-1] + 1 - indexes[0]]. *)
Definition stage_count (indexes : list Z) : res Z :=
  res_bind (Py.getitem indexes 0) (fun lo =>
  res_bind (Py.getitem indexes (-1)) (fun hi =>
  inr (hi + 1 - lo))).

(** [ixs] cuts the blocks [start, n) into contiguous, non-empty ranges in
    ascending order: each entry starts where the previous one ended and
    the last one ends at [n - 1]. *)
Fixpoint partitions_from (start n : Z) (ixs : list (list Z)) : bool :=
  match ixs with
  | [] => start =? n
  | ix :: ixs' =>
      match Py.getitem ix 0, Py.getitem ix (-1) with
      | inr lo, inr hi => (lo =? start) && (lo <=? hi) && partitions_from (hi + 1) n ixs'
      | _, _ => false
      end
  end.

Definition valid_partition (n : Z) (ixs : list (list Z)) : bool :=
  partitions_from 0 n ixs.

(** Sum of the per-stage block counts. *)
Fixpoint sum_counts (ixs : list (list Z)) : res Z :=
  match ixs with
  | [] => inr 0
  | ix :: ixs' =>
      res_bind (stage_count ix) (fun k =>
      res_bind (sum_counts ixs') (fun s => inr (k + s)))
  end.

(** ** Attribute assignments on a constructed backbone *)

Section Attributes.

Context {T Module : Type}.

(** [self.stage_wise_prune = v] *)
Definition set_stage_wise_prune (v : pyval) (self : EvoViTAdapter T Module)
  : EvoViTAdapter T Module :=
  {| base := base self; norm := norm self; head_ := head_ self;
     norm_cls := norm_cls self; head_cls := head_cls self;
     stage_wise_prune := v;
     num_classes := num_classes self; num_block := num_block self;
     pretrain_size := pretrain_size self;
     interaction_indexes := interaction_indexes self;
     add_vit_feature := add_vit_feature self;
     level_embed := level_embed self; spm := spm self;
     interactions := interactions self; up := up self;
     norm1 := norm1 self; norm2 := norm2 self;
     norm3 := norm3 self; norm4 := norm4 self |}.

(** [self.add_vit_feature = v] *)
Definition set_add_vit_feature (v : bool) (self : EvoViTAdapter T Module)
  : EvoViTAdapter T Module :=
  {| base := base self; norm := norm self; head_ := head_ self;
     norm_cls := norm_cls self; head_cls := head_cls self;
     stage_wise_prune := stage_wise_prune self;
     num_classes := num_classes self; num_block := num_block self;
     pretrain_size := pretrain_size self;
     interaction_indexes := interaction_indexes self;
     add_vit_feature := v;
     level_embed := level_embed self; spm := spm self;
     interactions := interactions self; up := up self;
     norm1 := norm1 self; norm2 := norm2 self;
     norm3 := norm3 self; norm4 := norm4 self |}.

(** Height and width of a tensor laid out as (batch, channel, height,
    width). *)
Definition spatial (t : Tensor T) : option (Z * Z) :=
  match shape t with
  | [_; _; h; w] => Some (h, w)
  | _ => None
  end.

End Attributes.

(** ** A small instance of the collaborators

    Integer scalars, modules named by numbers, twelve transformer blocks,
    an embedding dimension of 4 and a patch stride of 16.  The stages and
    the normalisations return their input.  It is used to run the model on
    concrete inputs. *)

Module Toy.

Definition D : Z := 4.

Definition iota (s : list Z) : Tensor Z := mkTensor s (ravel s).

Definition base_init (num_heads : Z) (args : list pyval) (kw : gmap string pyval)
  : res (Base Z nat) :=
  inr (mkBase (seq 0 12) (seq 100 12) (seq 200 12) (seq 300 12) (seq 400 12)
              500%nat 501%nat (iota [1; 1; D]) (iota [1; 197; D]) D (1 # 10)%Q
              502%nat (PyFloat (1 # 2)) (PyFloat (1 # 2))).

Definition spm_fwd (m : nat) (x : Tensor Z)
  : res (Tensor Z * Tensor Z * Tensor Z * Tensor Z) :=
  match shape x with
  | [bs; ch; h; w] =>
      inr (iota [bs; D; h / 4; w / 4],
           iota [bs; (h / 8) * (w / 8); D],
           iota [bs; (h / 16) * (w / 16); D],
           iota [bs; (h / 32) * (w / 32); D])
  | _ => inl (CollaboratorError "spm")
  end.

Definition patch_embed_fwd (m : nat) (x : Tensor Z) : res (Tensor Z * Z * Z) :=
  match shape x with
  | [bs; ch; h; w] => inr (iota [bs; (h / 16) * (w / 16); D], h / 16, w / 16)
  | _ => inl (CollaboratorError "patch_embed")
  end.

Definition layer_fwd (m : nat) (a : LayerArgs Z nat unit)
  : res (Tensor Z * Tensor Z * Tensor Z * ClsAttn Z) :=
  inr (la_cls_token a, la_x a, la_c a, CA_tensor (la_cls_token a)).

Definition E : Collaborators Z nat unit :=
  {| scalar_zero := 0;
     scalar_add := Z.add;
     interp_values := fun _ _ _ _ => 0;
     conv_transpose_values := fun _ _ _ => 0;
     normal_values := fun _ idx => 1;
     EvoVisionTransformer_init := base_init;
     SpatialPriorModule_init := fun _ _ => inr 600%nat;
     InteractionBlockForEvo_init :=
       fun cfg => inr (if ic_extra_extractor cfg then 701%nat else 700%nat);
     ConvTranspose2d_params := fun _ _ _ _ => inr 800%nat;
     SyncBatchNorm_init := fun _ => inr 900%nat;
     apply_init_weights := fun m => m;
     apply_init_deform_weights := fun m => m;
     deform_inputs := fun _ => inr (tt, tt);
     spm_forward := spm_fwd;
     patch_embed_forward := patch_embed_fwd;
     module_forward := fun _ t => inr t;
     layer_forward := layer_fwd |}.

(** The keyword arguments every configuration of this backbone passes. *)
Definition kw : gmap string pyval :=
  <["window_attn" := PyBool false]>
  (<["window_size" := PyInt 14]>
  (<["layer_scale" := PyBool false]>
  (<["pretrained" := PyNone]>
  (<["embed_dim" := PyInt 4]> ∅)))).

Definition args : Args.t :=
  Args.mk 224 12 64 4 6 0%Q (Some [[0; 2]; [3; 5]; [6; 8]; [9; 11]])
          true (1 # 4)%Q 1%Q true true [] kw.

(** The backbone [__init__ E args] returns. *)
Definition model : EvoViTAdapter Z nat :=
  {| base := mkBase (seq 0 12) (seq 100 12) (seq 200 12) (seq 300 12) (seq 400 12)
               500%nat 501%nat (iota [1; 1; D]) (iota [1; 197; D]) D (1 # 10)%Q
               502%nat (PyFloat (1 # 2)) (PyFloat (1 # 2));
     norm := None;
     head_ := None;
     norm_cls := None;
     head_cls := None;
     stage_wise_prune := PyBool false;
     num_classes := 80;
     num_block := 12;
     pretrain_size := (224, 224);
     interaction_indexes := Some [[0; 2]; [3; 5]; [6; 8]; [9; 11]];
     add_vit_feature := true;
     level_embed := mkTensor [3; D] (fun _ => 1);
     spm := 600%nat;
     interactions := [700; 700; 700; 701]%nat;
     up := mkConvTranspose2d D D (2, 2) (2, 2) (0, 0) (0, 0) (1, 1) 800%nat;
     norm1 := 900%nat;
     norm2 := 900%nat;
     norm3 := 900%nat;
     norm4 := 900%nat |}.

(** The same call with layer scale switched on. *)
Definition kw_layer_scale : gmap string pyval :=
  <["layer_scale" := PyBool true]> kw.

(** A call that leaves 'pretrained' out and switches layer scale on. *)
Definition kw_no_pretrained : gmap string pyval :=
  <["window_attn" := PyBool false]>
  (<["window_size" := PyInt 14]>
  (<["layer_scale" := PyBool true]> ∅)).

(** The same call with other values for the two legacy flags. *)
Definition kw_legacy : gmap string pyval :=
  <["window_attn" := PyBool true]> (<["window_size" := PyInt 7]> kw).

(** A batch of one 320x320 image with three channels. *)
Definition image : Tensor Z := iota [1; 3; 320; 320].

(** The same backbone after [model.stage_wise_prune = True], and after
    [model.add_vit_feature = False]. *)
Definition model_pruning : EvoViTAdapter Z nat :=
  set_stage_wise_prune (PyBool true) model.

Definition model_conv_only : EvoViTAdapter Z nat :=
  set_add_vit_feature false model.

(** What a forward call of [model] on [image] returns. *)
Definition features : list (Tensor Z) := value [] (forward E model image).

(** Three short sequences of dimension 2, with 4, 2 and 1 tokens. *)
Definition seq4 : Tensor Z := iota [1; 4; 2].
Definition seq2 : Tensor Z := mkTensor [1; 2; 2] (fun idx => 100 + ravel [1; 2; 2] idx).
Definition seq1 : Tensor Z := mkTensor [1; 1; 2] (fun idx => 200 + ravel [1; 1; 2] idx).

End Toy.


(** The four keys [__init__] pops, in the order it pops them. *)
Definition popped_keys : list string :=
  ["window_attn"; "window_size"; "layer_scale"; "pretrained"].

(** Two keyword dictionaries that differ at most in the values they give
    to the two legacy keys. *)
Definition same_but_legacy (kw1 kw2 : gmap string pyval) : Prop :=
  (forall k, k <> "window_attn" -> k <> "window_size" -> kw1 !! k = kw2 !! k)
  /\ (is_Some (kw1 !! "window_attn") <-> is_Some (kw2 !! "window_attn"))
  /\ (is_Some (kw1 !! "window_size") <-> is_Some (kw2 !! "window_size")).

(** The exception lines 25-28 of [__init__] end with, by cases on the
    dictionary; [None] when they all pass. *)
Definition checks_outcome (kw : gmap string pyval) : option PyExc :=
  match kw !! "window_attn" with
  | None => Some (KeyError "window_attn")
  | Some _ =>
    match kw !! "window_size" with
    | None => Some (KeyError "window_size")
    | Some _ =>
      match kw !! "layer_scale" with
      | None => Some (KeyError "layer_scale")
      | Some ls =>
        if is_False ls then
          match kw !! "pretrained" with
          | None => Some (KeyError "pretrained")
          | Some pt =>
              if is_None pt then None
              else Some (AssertionError "use load_from instead of pretrained")
          end
        else Some (AssertionError
                     "Pytorch Better Transformer does not support layer scale")
      end
    end
  end.


(** ** The constructor after its checks

    When lines 25-28 pass, [__init__] goes on from line 29 with the
    dictionary the four pops have left. *)

(** The dictionary after the four pops. *)
Definition base_kwargs (kw : gmap string pyval) : gmap string pyval :=
  delete "pretrained" (delete "layer_scale" (delete "window_size" (delete "window_attn" kw))).

Section AfterChecks.

Context {T Module DeformInputs : Type}.
Variable E : Collaborators T Module DeformInputs.

Local Abbreviation M := (M (event T Module DeformInputs)).

(** Lines 29-65, with [kw] for what is left of [kwargs]. *)
Definition build (a : Args.t) (kw : gmap string pyval) : M (EvoViTAdapter T Module) :=
  let* b := at_line 29 New_base
              (EvoVisionTransformer_init E (Args.num_heads a) (Args.args a) kw) in
  let embed_dim := embed_dim b in
  let* level_embed := at_line 44 New_parameter (zeros E [3; embed_dim]) in
  let* spm := at_line 45 New_spm
                (SpatialPriorModule_init E (Args.conv_inplane a) embed_dim) in
  let* n := lift (len_indexes (Args.interaction_indexes a)) in
  let* interactions := build_interactions E (interaction_config a b n) 0 n in
  let* up_params := at_line 55 New_conv_transpose
                      (ConvTranspose2d_params E embed_dim embed_dim (2, 2) (2, 2)) in
  let* norm1 := at_line 56 (New_norm 1) (SyncBatchNorm_init E embed_dim) in
  let* norm2 := at_line 57 (New_norm 2) (SyncBatchNorm_init E embed_dim) in
  let* norm3 := at_line 58 (New_norm 3) (SyncBatchNorm_init E embed_dim) in
  let* norm4 := at_line 59 (New_norm 4) (SyncBatchNorm_init E embed_dim) in
  let* up_params := at_line 61 Init_weights (inr (apply_init_weights E up_params)) in
  let* spm := at_line 62 Init_weights (inr (apply_init_weights E spm)) in
  let* interactions := at_line 63 Init_weights
                         (inr (map (apply_init_weights E) interactions)) in
  let f := apply_init_deform_weights E in
  let* _ := at_line 64 Init_deform_weights (inr tt) in
  let* level_embed := at_line 65 Init_normal (inr (normal_ E level_embed)) in
  ret {| base := base_apply f b;
         norm := None;
         head_ := None;
         norm_cls := None;
         head_cls := None;
         stage_wise_prune := PyBool false;
         num_classes := 80;
         num_block := Z.of_nat (length (blocks b));
         pretrain_size := (Args.pretrain_size a, Args.pretrain_size a);
         interaction_indexes := Args.interaction_indexes a;
         add_vit_feature := Args.add_vit_feature a;
         level_embed := level_embed;
         spm := f spm;
         interactions := map f interactions;
         up := mkConvTranspose2d embed_dim embed_dim (2, 2) (2, 2) (0, 0) (0, 0) (1, 1)
                 up_params;
         norm1 := norm1;
         norm2 := norm2;
         norm3 := norm3;
         norm4 := norm4 |}.

(** The stages built, in the order they were built: their number and
    whether they were given the extra extractor. *)
Fixpoint stages_built (tr : list (event T Module DeformInputs)) : list (nat * bool) :=
  match tr with
  | [] => []
  | Ev _ (New_interaction i extra) :: tr' => (i, extra) :: stages_built tr'
  | _ :: tr' => stages_built tr'
  end.

(** [self.interaction_indexes = v] *)
Definition set_interaction_indexes (v : option (list (list Z)))
    (self : EvoViTAdapter T Module) : EvoViTAdapter T Module :=
  {| base := base self; norm := norm self; head_ := head_ self;
     norm_cls := norm_cls self; head_cls := head_cls self;
     stage_wise_prune := stage_wise_prune self;
     num_classes := num_classes self; num_block := num_block self;
     pretrain_size := pretrain_size self;
     interaction_indexes := v;
     add_vit_feature := add_vit_feature self;
     level_embed := level_embed self; spm := spm self;
     interactions := interactions self; up := up self;
     norm1 := norm1 self; norm2 := norm2 self;
     norm3 := norm3 self; norm4 := norm4 self |}.

(** The same run, with [f] applied to what it returns. *)
Definition map_value {A B} (f : A -> B) (m : M A) : M B :=
  (trace m, match outcome m with inr a => inr (f a) | inl e => inl e end).

(** What line 121 hands to a stage, read off its call: the five lists of
    per-block modules cut with the bounds [indexes[0]] and
    [indexes[-1] + 1], and the grid, deform inputs and pruning settings of
    the call of [forward]. *)
Definition stage_args_of (self : EvoViTAdapter T Module) (p : Prepared T DeformInputs)
    (a : LayerArgs T Module DeformInputs) : Prop :=
  exists lo hi,
    Py.getitem (la_indexes a) 0 = inr lo
    /\ Py.getitem (la_indexes a) (-1) = inr hi
    /\ la_blocks a = Py.slice (blocks (base self)) lo (hi + 1)
    /\ la_norms a = Py.slice (norms (base self)) lo (hi + 1)
    /\ la_vs a = Py.slice (vs (base self)) lo (hi + 1)
    /\ la_qks a = Py.slice (qks (base self)) lo (hi + 1)
    /\ la_projs a = Py.slice (projs (base self)) lo (hi + 1)
    /\ la_deform_inputs1 a = p_deform_inputs1 p
    /\ la_deform_inputs2 a = p_deform_inputs2 p
    /\ la_H a = p_H p /\ la_W a = p_W p
    /\ la_prune_ratio a = prune_ratio (base self)
    /\ la_tradeoff a = tradeoff (base self).

End AfterChecks.


(** ** Weight initialisation (lines 67-80 and 89-91)

    [_init_weights] and [_init_deform_weights] are callbacks for
    [Module.apply], which calls them on every sub-module, children before
    parents.  A module is its kind, with the parameters and attributes the
    callbacks read, and its children.  The random fills and
    [MSDeformAttn._reset_parameters] are parameters; the arithmetic of
    [fan_out] and the exceptions it can raise are modelled. *)

Module Init.

Inductive exc : Type :=
| ZeroDivisionError
| ValueError
| AttributeError.

Definition res (A : Type) : Type := (exc + A)%type.

Section Kernels.

Context {T P : Type}.

(** The kinds of module the two callbacks tell apart with [isinstance];
    [P] is what a deformable-attention module holds. *)
Inductive layer : Type :=
| Linear (weight : Tensor T) (bias : option (Tensor T))
| LayerNorm (weight bias : option (Tensor T))
| BatchNorm2d (weight bias : option (Tensor T))
| Conv2d (kernel_size : Z * Z) (out_channels groups : Z)
         (weight : Tensor T) (bias : option (Tensor T))
| ConvTranspose2d (kernel_size : Z * Z) (out_channels groups : Z)
                  (weight : Tensor T) (bias : option (Tensor T))
| MSDeformAttn (params : P)
| Other (name : string).

Local Unset Elimination Schemes.

Inductive module : Type :=
| Node (kind : layer) (children : list module).

Local Set Elimination Schemes.

Variable zero one : T.
(** [trunc_normal_(w, std=.02)] *)
Variable trunc_normal_values : Tensor T -> list Z -> T.
(** [w.data.normal_(0, math.sqrt(2.0 / fan_out))], by [fan_out] *)
Variable normal_values : Z -> Tensor T -> list Z -> T.
(** [m._reset_parameters()] on a deformable-attention module *)
Variable reset_parameters : module -> module.

(** [nn.init.constant_(t, v)] and [t.data.zero_()]: same shape, one value. *)
Definition fill (v : T) (t : Tensor T) : Tensor T := mkTensor (shape t) (fun _ => v).

(** [nn.init.constant_(t, v)] where [t] may be None: None has no
    [fill_]. *)
Definition constant_ (v : T) (t : option (Tensor T)) : res (option (Tensor T)) :=
  match t with
  | Some w => inr (Some (fill v w))
  | None => inl AttributeError
  end.

(** Lines 76-77: [kernel_size[0] * kernel_size[1] * out_channels], floor
    divided by [groups]. *)
Definition fan_out (kernel_size : Z * Z) (out_channels groups : Z) : res Z :=
  if groups =? 0 then inl ZeroDivisionError
  else inr ((fst kernel_size * snd kernel_size * out_channels) / groups).

(** Lines 76-80. *)
Definition init_conv (kernel_size : Z * Z) (out_channels groups : Z)
    (weight : Tensor T) (bias : option (Tensor T))
  : res (Tensor T * option (Tensor T)) :=
  match fan_out kernel_size out_channels groups with
  | inl e => inl e
  | inr f =>
      (* 2.0 / fan_out, then math.sqrt *)
      if f =? 0 then inl ZeroDivisionError
      else if f <? 0 then inl ValueError
      else inr (mkTensor (shape weight) (normal_values f weight),
                match bias with
                | Some b => Some (fill zero b)
                | None => None
                end)
  end.

(** [_init_weights] on the parameters of one module (lines 67-80). *)
Definition init_layer (k : layer) : res layer :=
  match k with
  | Linear w b =>
      inr (Linear (mkTensor (shape w) (trunc_normal_values w))
                  (match b with Some t => Some (fill zero t) | None => None end))
  | LayerNorm w b =>
      match constant_ zero b with
      | inl e => inl e
      | inr b' => match constant_ one w with
                  | inl e => inl e
                  | inr w' => inr (LayerNorm w' b')
                  end
      end
  | BatchNorm2d w b =>
      match constant_ zero b with
      | inl e => inl e
      | inr b' => match constant_ one w with
                  | inl e => inl e
                  | inr w' => inr (BatchNorm2d w' b')
                  end
      end
  | Conv2d ks oc g w b =>
      match init_conv ks oc g w b with
      | inl e => inl e
      | inr (w', b') => inr (Conv2d ks oc g w' b')
      end
  | ConvTranspose2d ks oc g w b =>
      match init_conv ks oc g w b with
      | inl e => inl e
      | inr (w', b') => inr (ConvTranspose2d ks oc g w' b')
      end
  | MSDeformAttn p => inr (MSDeformAttn p)
  | Other name => inr (Other name)
  end.

Definition _init_weights (m : module) : res module :=
  match m with
  | Node k cs =>
      match init_layer k with
      | inl e => inl e
      | inr k' => inr (Node k' cs)
      end
  end.

(** Lines 89-91. *)
Definition _init_deform_weights (m : module) : res module :=
  match m with
  | Node (MSDeformAttn _) _ => inr (reset_parameters m)
  | _ => inr m
  end.

(** [m.apply(fn)]: the children in order, then the module itself; the
    first exception ends it. *)
Fixpoint apply (fn : module -> res module) (m : module) : res module :=
  match m with
  | Node k cs =>
      match (fix each (l : list module) : res (list module) :=
               match l with
               | [] => inr []
               | c :: l' =>
                   match apply fn c with
                   | inl e => inl e
                   | inr c' => match each l' with
                               | inl e => inl e
                               | inr l'' => inr (c' :: l'')
                               end
                   end
               end) cs with
      | inl e => inl e
      | inr cs' => fn (Node k cs')
      end
  end.

(** [apply] on each module of a list, in order. *)
Definition apply_each (fn : module -> res module) : list module -> res (list module) :=
  fix each (l : list module) : res (list module) :=
    match l with
    | [] => inr []
    | c :: l' =>
        match apply fn c with
        | inl e => inl e
        | inr c' => match each l' with
                    | inl e => inl e
                    | inr l'' => inr (c' :: l'')
                    end
        end
    end.

(** A deformable-attention module somewhere in the tree. *)
Fixpoint has_deform (m : module) : bool :=
  match m with
  | Node k cs =>
      match k with MSDeformAttn _ => true | _ => false end
      || (fix any (l : list module) : bool :=
            match l with
            | [] => false
            | c :: l' => has_deform c || any l'
            end) cs
  end.

(** The shapes of the parameters of a module, its children's after its
    own. *)
Definition layer_shapes (k : layer) : list (option (list Z)) :=
  match k with
  | Linear w b => [Some (shape w); option_map shape b]
  | LayerNorm w b | BatchNorm2d w b => [option_map shape w; option_map shape b]
  | Conv2d _ _ _ w b | ConvTranspose2d _ _ _ w b => [Some (shape w); option_map shape b]
  | MSDeformAttn _ | Other _ => []
  end.

Fixpoint shapes (m : module) : list (option (list Z)) :=
  match m with
  | Node k cs =>
      layer_shapes k
      ++ (fix all (l : list module) : list (option (list Z)) :=
            match l with
            | [] => []
            | c :: l' => shapes c ++ all l'
            end) cs
  end.

(** Number of modules in the tree. *)
Fixpoint count (m : module) : nat :=
  match m with
  | Node _ cs =>
      S ((fix all (l : list module) : nat :=
            match l with
            | [] => O
            | c :: l' => (count c + all l')%nat
            end) cs)
  end.

End Kernels.

End Init.


(** ** More sample inputs *)

Module Sample.

(** The call of [Toy.args] with [interaction_indexes] left out. *)
Definition args_no_indexes : Args.t := Args.with_indexes Toy.args None.

(** Four ranges that overlap, leave gaps and reach past the last block. *)
Definition odd_indexes : list (list Z) := [[0; 5]; [2; 3]; [50; 60]; [1; 1]].

(** The call of [Toy.args] with a pretraining size of 8. *)
Definition args_small : Args.t :=
  Args.mk 8 12 64 4 6 0%Q (Some [[0; 2]; [3; 5]; [6; 8]; [9; 11]])
          true (1 # 4)%Q 1%Q true true [] Toy.kw.

Definition model_small : EvoViTAdapter Z nat :=
  value Toy.model (__init__ Toy.E args_small).

(** [Toy.E] with a spatial prior module that raises. *)
Definition E_spm_raises : Collaborators Z nat unit :=
  {| scalar_zero := scalar_zero Toy.E;
     scalar_add := scalar_add Toy.E;
     interp_values := interp_values Toy.E;
     conv_transpose_values := conv_transpose_values Toy.E;
     normal_values := normal_values Toy.E;
     EvoVisionTransformer_init := EvoVisionTransformer_init Toy.E;
     SpatialPriorModule_init := SpatialPriorModule_init Toy.E;
     InteractionBlockForEvo_init := InteractionBlockForEvo_init Toy.E;
     ConvTranspose2d_params := ConvTranspose2d_params Toy.E;
     SyncBatchNorm_init := SyncBatchNorm_init Toy.E;
     apply_init_weights := apply_init_weights Toy.E;
     apply_init_deform_weights := apply_init_deform_weights Toy.E;
     deform_inputs := deform_inputs Toy.E;
     spm_forward := fun _ _ => inl (CollaboratorError "spm");
     patch_embed_forward := patch_embed_forward Toy.E;
     module_forward := module_forward Toy.E;
     layer_forward := layer_forward Toy.E |}.

(** [Toy.model] after [model.interaction_indexes = [[], [3, 5]]]. *)
Definition model_empty_entry : EvoViTAdapter Z nat :=
  set_interaction_indexes (Some [[]; [3; 5]]) Toy.model.

Definition no_tensor : Tensor Z := Toy.iota [].

Definition nothing_prepared : Prepared Z unit :=
  mkPrepared tt tt no_tensor no_tensor no_tensor no_tensor no_tensor no_tensor 0 0 0 0.

(** What lines 100-114 leave, for [Toy.model] and for [model_empty_entry]
    on [Toy.image]. *)
Definition prepared : Prepared Z unit :=
  value nothing_prepared (prepare Toy.E Toy.model Toy.image).

Definition prepared_empty_entry : Prepared Z unit :=
  value nothing_prepared (prepare Toy.E model_empty_entry Toy.image).

Definition level8 : Tensor Z := Toy.iota [1; 16; 4].
Definition level16 : Tensor Z := Toy.iota [1; 4; 4].
Definition level32 : Tensor Z := Toy.iota [1; 1; 4].
Definition map4 : Tensor Z := Toy.iota [1; 4; 8; 8].
Definition map8 : Tensor Z := Toy.iota [1; 4; 4; 4].
Definition map16 : Tensor Z := Toy.iota [1; 4; 2; 2].
Definition map32 : Tensor Z := Toy.iota [1; 4; 1; 1].

(** A conv sequence of three tokens, shorter than the levels it is cut
    into. *)
Definition short_sequence : Tensor Z := Toy.iota [1; 3; 2].

(** Tokens of a grid one token high and three wide. *)
Definition row_tokens : Tensor Z := Toy.iota [1; 1 * 3; 4].

(** Kernels for [Init]: every fill writes a fixed value. *)
Definition init_weights : Init.module (T := Z) (P := unit) -> Init.res Init.module :=
  Init._init_weights 0 1 (fun _ _ => 7) (fun f _ _ => f).

Definition init_deform_weights
  : Init.module (T := Z) (P := unit) -> Init.res Init.module :=
  Init._init_deform_weights (fun m => m).

(** A module like [self.up], in a container with a linear layer. *)
Definition up_tree : Init.module (T := Z) (P := unit) :=
  Init.Node (Init.Other "Sequential")
    [Init.Node (Init.ConvTranspose2d (2, 2) 4 1 (Toy.iota [4; 4; 2; 2])
                  (Some (Toy.iota [4]))) [];
     Init.Node (Init.Linear (Toy.iota [4; 4]) None) []].

Definition up_tree_initialised : Init.module (T := Z) (P := unit) :=
  match Init.apply init_weights up_tree with
  | inr m => m
  | inl _ => up_tree
  end.

End Sample.


(** * Properties *)

Example toy_init : outcome (__init__ Toy.E Toy.args) = inr Toy.model.
Proof. vm_compute. reflexivity. Qed.

Example toy_forward_shapes :
  match outcome (forward Toy.E Toy.model Toy.image) with
  | inr fs => map shape fs
  | inl _ => []
  end = [[1; 4; 80; 80]; [1; 4; 40; 40]; [1; 4; 20; 20]; [1; 4; 10; 10]].
Proof. vm_compute. reflexivity. Qed.

Example toy_forward_lines :
  map line (trace (forward Toy.E Toy.model Toy.image)) =
  [101; 104; 94; 94; 95; 95; 96; 96; 106; 109; 111; 112; 112; 112; 113;
   83; 84; 85; 86; 86; 114; 114; 121; 121; 121; 121; 127; 128; 129;
   131; 131; 131; 132; 132; 132; 133; 133; 133; 134; 134;
   137; 137; 137; 138; 139; 140; 141; 141; 141; 141; 144; 145; 146; 147]%nat.
Proof. vm_compute. reflexivity. Qed.

(** ** The monad *)

Section MonadFacts.

Context {Ev A B : Type}.

Lemma trace_bind (m : M Ev A) (f : A -> M Ev B) :
  trace (bind m f) =
  trace m ++ match outcome m with inr a => trace (f a) | inl _ => [] end.
Proof.
  destruct m as [tr [e | a]]; simpl.
  - now rewrite app_nil_r.
  - now destruct (f a).
Qed.

Lemma outcome_bind (m : M Ev A) (f : A -> M Ev B) :
  outcome (bind m f) =
  match outcome m with inr a => outcome (f a) | inl e => inl e end.
Proof.
  destruct m as [tr [e | a]]; simpl; [reflexivity |].
  now destruct (f a).
Qed.

(** A bind that returns went through both of its parts. *)
Lemma bind_inr (m : M Ev A) (f : A -> M Ev B) tr b :
  bind m f = (tr, inr b) ->
  exists tr1 a tr2, m = (tr1, inr a) /\ f a = (tr2, inr b) /\ tr = tr1 ++ tr2.
Proof.
  destruct m as [tr1 [e | a]]; simpl; [discriminate |].
  destruct (f a) as [tr2 r] eqn:Hf. intros [= <- ->].
  now exists tr1, a, tr2.
Qed.

Lemma bind_raise (m : M Ev A) (f : A -> M Ev B) tr e :
  m = (tr, inl e) -> bind m f = (tr, inl e).
Proof. now intros ->. Qed.

(** Every event of a bind satisfies [P] when the events of both parts do. *)
Lemma Forall_trace_bind (P : Ev -> Prop) (m : M Ev A) (f : A -> M Ev B) :
  Forall P (trace m) ->
  (forall a, outcome m = inr a -> Forall P (trace (f a))) ->
  Forall P (trace (bind m f)).
Proof.
  intros Hm Hf. rewrite trace_bind. apply Forall_app. split; [exact Hm |].
  destruct (outcome m) as [e | a]; [constructor | now apply Hf].
Qed.

Lemma Forall_trace_call (P : Ev -> Prop) (e : Ev) (r : res A) :
  P e -> Forall P (trace (call e r)).
Proof. intros He. repeat constructor. exact He. Qed.

End MonadFacts.

Lemma returns_value {Ev A} (m : M Ev A) (d : A) :
  returns m = true -> m = (trace m, inr (value d m)).
Proof. destruct m as [tr [e | a]]; [discriminate | reflexivity]. Qed.

Lemma bind_ret_l {Ev A B} (a : A) (f : A -> M Ev B) : bind (ret a) f = f a.
Proof. unfold bind, ret. now destruct (f a). Qed.

Lemma bind_lift_inr {Ev A B} (a : A) (f : A -> M Ev B) : bind (lift (inr a)) f = f a.
Proof. apply bind_ret_l. Qed.

(** ** The constructor *)

Section Construction.

Context {T Module DeformInputs : Type}.
Variable E : Collaborators T Module DeformInputs.

Local Abbreviation init := (__init__ E).

Lemma pop_present (kw : gmap string pyval) k v :
  kw !! k = Some v ->
  pop (T := T) (Module := Module) (DeformInputs := DeformInputs) kw k
  = ret (v, delete k kw).
Proof. unfold pop. now intros ->. Qed.

Lemma pop_absent (kw : gmap string pyval) k :
  kw !! k = None ->
  pop (T := T) (Module := Module) (DeformInputs := DeformInputs) kw k
  = raise (KeyError k).
Proof. unfold pop. now intros ->. Qed.

Lemma init_checks_fail (a : Args.t) e :
  checks_outcome (Args.kwargs a) = Some e -> init a = ([], inl e).
Proof.
  unfold checks_outcome, __init__. intros H.
  destruct (Args.kwargs a !! "window_attn") as [wa |] eqn:Hwa.
  2:{ injection H as <-. now rewrite (pop_absent _ _ Hwa). }
  rewrite (pop_present _ _ _ Hwa), bind_ret_l.
  destruct (Args.kwargs a !! "window_size") as [ws |] eqn:Hws.
  2:{ injection H as <-. rewrite pop_absent; [reflexivity |].
      now rewrite lookup_delete_ne. }
  rewrite (pop_present _ "window_size" ws), bind_ret_l
    by now rewrite lookup_delete_ne.
  destruct (Args.kwargs a !! "layer_scale") as [ls |] eqn:Hls.
  2:{ injection H as <-. rewrite pop_absent; [reflexivity |].
      now rewrite !lookup_delete_ne. }
  rewrite (pop_present _ "layer_scale" ls), bind_ret_l
    by now rewrite !lookup_delete_ne.
  destruct (is_False ls); simpl assert_.
  2:{ now injection H as <-. }
  rewrite bind_ret_l.
  destruct (Args.kwargs a !! "pretrained") as [pt |] eqn:Hpt.
  2:{ injection H as <-. rewrite pop_absent; [reflexivity |].
      now rewrite !lookup_delete_ne. }
  rewrite (pop_present _ "pretrained" pt), bind_ret_l
    by now rewrite !lookup_delete_ne.
  destruct (is_None pt); [discriminate |].
  now injection H as <-.
Qed.

End Construction.

Section ConstructionClaims.

Context {T Module DeformInputs : Type}.
Variable E : Collaborators T Module DeformInputs.

(** C6.  A construction call whose [layer_scale] is not False, or whose
    [pretrained] is not None, raises before anything is built or computed:
    the trace of [__init__] is empty and its outcome is an exception.  When
    the four popped keys are all present the exception is the assertion
    error of line 27 or of line 28. *)
Theorem init_rejects_layer_scale_and_pretrained (a : Args.t) :
  Args.kwargs a !! "layer_scale" <> Some (PyBool false)
  \/ Args.kwargs a !! "pretrained" <> Some PyNone ->
  exists e,
    __init__ E a = ([], inl e)
    /\ ((forall k, k ∈ popped_keys -> is_Some (Args.kwargs a !! k)) ->
        e = AssertionError "Pytorch Better Transformer does not support layer scale"
        \/ e = AssertionError "use load_from instead of pretrained").
Proof.
  intros H.
  destruct (checks_outcome (Args.kwargs a)) as [e |] eqn:Hc.
  - exists e. split; [now apply init_checks_fail |].
    intros Hall. unfold checks_outcome in Hc.
    destruct (Hall "window_attn") as [wa Hwa]; [unfold popped_keys; rewrite !elem_of_cons; tauto |].
    destruct (Hall "window_size") as [ws Hws]; [unfold popped_keys; rewrite !elem_of_cons; tauto |].
    destruct (Hall "layer_scale") as [ls Hls]; [unfold popped_keys; rewrite !elem_of_cons; tauto |].
    destruct (Hall "pretrained") as [pt Hpt];
      [unfold popped_keys; rewrite !elem_of_cons; tauto |].
    rewrite Hwa, Hws, Hls, Hpt in Hc.
    destruct (is_False ls); [| left; congruence].
    destruct (is_None pt); [discriminate | right; congruence].
  - exfalso. unfold checks_outcome in Hc.
    destruct (Args.kwargs a !! "window_attn"); [| discriminate].
    destruct (Args.kwargs a !! "window_size"); [| discriminate].
    destruct (Args.kwargs a !! "layer_scale") as [[| [|] | | |] |];
      try discriminate.
    destruct (Args.kwargs a !! "pretrained") as [[| | | |] |];
      try discriminate.
    destruct H as [H | H]; now apply H.
Qed.

(** C9, as amended.  A construction call that omits one of the four
    popped keys fails before anything is built.  The failure is the
    KeyError of the first missing key, except that a call which has
    'window_attn', 'window_size' and a 'layer_scale' that is not False
    fails with the assertion error of line 27 before 'pretrained' is
    looked up. *)
Theorem init_missing_key (a : Args.t) :
  (exists k, k ∈ popped_keys /\ Args.kwargs a !! k = None) ->
  exists e,
    __init__ E a = ([], inl e)
    /\ match Args.kwargs a !! "window_attn", Args.kwargs a !! "window_size",
             Args.kwargs a !! "layer_scale" with
       | None, _, _ => e = KeyError "window_attn"
       | Some _, None, _ => e = KeyError "window_size"
       | Some _, Some _, None => e = KeyError "layer_scale"
       | Some _, Some _, Some ls =>
           if is_False ls then e = KeyError "pretrained"
           else e = AssertionError
                      "Pytorch Better Transformer does not support layer scale"
       end.
Proof.
  intros (k & Hk & Hnone).
  assert (Hcases : k = "window_attn" \/ k = "window_size"
                   \/ k = "layer_scale" \/ k = "pretrained").
  { unfold popped_keys in Hk. rewrite !elem_of_cons, elem_of_nil in Hk. tauto. }
  assert (Hsome : exists e, checks_outcome (Args.kwargs a) = Some e
    /\ match Args.kwargs a !! "window_attn", Args.kwargs a !! "window_size",
             Args.kwargs a !! "layer_scale" with
       | None, _, _ => e = KeyError "window_attn"
       | Some _, None, _ => e = KeyError "window_size"
       | Some _, Some _, None => e = KeyError "layer_scale"
       | Some _, Some _, Some ls =>
           if is_False ls then e = KeyError "pretrained"
           else e = AssertionError
                      "Pytorch Better Transformer does not support layer scale"
       end).
  { unfold checks_outcome.
    destruct (Args.kwargs a !! "window_attn") eqn:Hwa; [| eauto].
    destruct (Args.kwargs a !! "window_size") eqn:Hws; [| eauto].
    destruct (Args.kwargs a !! "layer_scale") as [ls |] eqn:Hls; [| eauto].
    destruct (is_False ls); [| eauto].
    destruct (Args.kwargs a !! "pretrained") eqn:Hpt; [| eauto].
    exfalso. destruct Hcases as [-> | [-> | [-> | ->]]]; congruence. }
  destruct Hsome as (e & Hc & He).
  exists e. split; [now apply init_checks_fail | exact He].
Qed.

(** C8.  Two construction calls that differ only in the values given to
    'window_attn' and 'window_size' run the same construction: the same
    trace and the same backbone (or the same exception), hence the same
    result of every forward call. *)
Theorem legacy_flags_ignored (a : Args.t) (kw1 kw2 : gmap string pyval) :
  same_but_legacy kw1 kw2 ->
  __init__ E (Args.with_kwargs a kw1) = __init__ E (Args.with_kwargs a kw2)
  /\ forall x,
       (let* self := __init__ E (Args.with_kwargs a kw1) in forward E self x)
       = (let* self := __init__ E (Args.with_kwargs a kw2) in forward E self x).
Proof.
  intros (Hother & Hwa & Hws).
  assert (Hinit : __init__ E (Args.with_kwargs a kw1)
                  = __init__ E (Args.with_kwargs a kw2)).
  { unfold __init__. cbn [Args.kwargs Args.with_kwargs Args.num_heads Args.args
      Args.conv_inplane Args.interaction_indexes Args.pretrain_size
      Args.add_vit_feature].
    destruct (kw1 !! "window_attn") as [v1 |] eqn:H1;
      destruct (kw2 !! "window_attn") as [v2 |] eqn:H2;
      try (exfalso; destruct Hwa as [Ha Hb];
           first [ now destruct Ha as [? [=]]; eauto
                 | now destruct Hb as [? [=]]; eauto ]).
    2:{ now rewrite !pop_absent. }
    rewrite (pop_present kw1 _ _ H1), (pop_present kw2 _ _ H2), !bind_ret_l.
    destruct (kw1 !! "window_size") as [w1 |] eqn:H3;
      destruct (kw2 !! "window_size") as [w2 |] eqn:H4;
      try (exfalso; destruct Hws as [Ha Hb];
           first [ now destruct Ha as [? [=]]; eauto
                 | now destruct Hb as [? [=]]; eauto ]).
    2:{ rewrite !pop_absent; [reflexivity | |]; now rewrite lookup_delete_ne. }
    rewrite (pop_present (delete "window_attn" kw1) "window_size" w1),
            (pop_present (delete "window_attn" kw2) "window_size" w2), !bind_ret_l
      by now rewrite lookup_delete_ne.
    assert (Heq : delete "window_size" (delete "window_attn" kw1)
                  = delete "window_size" (delete "window_attn" kw2)).
    { apply map_eq. intros k.
      destruct (decide (k = "window_size")) as [-> | Hk1].
      { now rewrite !lookup_delete_eq. }
      rewrite !(lookup_delete_ne _ "window_size") by congruence.
      destruct (decide (k = "window_attn")) as [-> | Hk2].
      { now rewrite !lookup_delete_eq. }
      rewrite !(lookup_delete_ne _ "window_attn") by congruence.
      now apply Hother. }
    now rewrite Heq. }
  split; [exact Hinit |].
  intros x. now rewrite Hinit.
Qed.

End ConstructionClaims.

(** ** Shapes *)

Section TensorFacts.

Context {T : Type}.

(** Sizes other than -1 are kept by [infer_sizes]. *)
Lemma infer_sizes_keeps n sizes s :
  infer_sizes n sizes = inr s ->
  exists g : Z -> Z, s = map g sizes /\ forall z, z <> -1 -> g z = z.
Proof.
  unfold infer_sizes.
  destruct (existsb _ sizes); [discriminate |].
  destruct (_ - _)%nat as [| [| k]].
  - destruct (_ =? n); [| discriminate]. intros [= <-].
    exists (fun z => z). split; [now rewrite map_id | reflexivity].
  - destruct (_ || _); [discriminate |]. intros [= <-].
    eexists. split; [reflexivity |]. intros z Hz. cbv beta.
    destruct (Z.eqb_spec z (-1)); congruence.
  - discriminate.
Qed.

(** [reshape(a, -1, b)] *)
Lemma infer_sizes_middle a b n :
  0 < a -> 0 < b -> n mod (a * b) = 0 ->
  infer_sizes n [a; -1; b] = inr [a; n / (a * b); b].
Proof.
  intros Ha Hb Hmod. unfold infer_sizes.
  rewrite !filter_cons, filter_nil.
  repeat case_decide; try lia.
  cbn [existsb length Nat.sub numel map orb].
  replace (a * (b * 1)) with (a * b) by lia.
  rewrite Hmod.
  destruct (Z.ltb_spec a (-1)); [lia |].
  destruct (Z.ltb_spec b (-1)); [lia |].
  destruct (Z.eqb_spec (a * b) 0); [nia |].
  destruct (Z.eqb_spec a (-1)); [lia |].
  destruct (Z.eqb_spec b (-1)); [lia |].
  reflexivity.
Qed.

(** [reshape(1, b, c, -1)] *)
Lemma infer_sizes_last b c n :
  0 < b -> 0 < c -> n mod (b * c) = 0 ->
  infer_sizes n [1; b; c; -1] = inr [1; b; c; n / (b * c)].
Proof.
  intros Hb Hc Hmod. unfold infer_sizes.
  rewrite !filter_cons, filter_nil.
  repeat case_decide; try lia.
  cbn [existsb length Nat.sub numel map orb].
  replace (1 * (b * (c * 1))) with (b * c) by lia.
  rewrite Hmod.
  destruct (Z.ltb_spec b (-1)); [lia |].
  destruct (Z.ltb_spec c (-1)); [lia |].
  destruct (Z.eqb_spec (b * c) 0); [nia |].
  destruct (Z.eqb_spec b (-1)); [lia |].
  destruct (Z.eqb_spec c (-1)); [lia |].
  reflexivity.
Qed.

Lemma reshape_shape (t : Tensor T) sizes r :
  reshape t sizes = inr r -> infer_sizes (numel (shape t)) sizes = inr (shape r).
Proof.
  unfold reshape. destruct (infer_sizes _ sizes) as [e | s]; [discriminate |].
  now intros [= <-].
Qed.

Lemma permute_shape (t : Tensor T) dims r :
  permute t dims = inr r ->
  length dims = rank t /\ shape r = map (fun d => nth d (shape t) 0) dims.
Proof.
  unfold permute.
  destruct (Nat.eqb_spec (length dims) (rank t)) as [Hlen | Hlen]; [| discriminate].
  cbn [negb orb]. destruct (forallb _ _); [| discriminate].
  cbn [negb]. now intros [= <-].
Qed.

Lemma interpolate_to_shape iv mode (t : Tensor T) h w r :
  interpolate_to iv mode t h w = inr r ->
  0 < h /\ 0 < w /\ exists n c, shape r = [n; c; h; w].
Proof.
  unfold interpolate_to.
  destruct (shape t) as [| n [| c [| hin [| win [| ? ?]]]]]; try discriminate.
  destruct (Z.ltb_spec 0 c); [| discriminate].
  destruct (Z.ltb_spec 0 hin); [| discriminate].
  destruct (Z.ltb_spec 0 win); [| discriminate].
  destruct (Z.ltb_spec 0 h); [| discriminate].
  destruct (Z.ltb_spec 0 w); [| discriminate].
  intros [= <-]. eauto.
Qed.

Lemma reshape_returns (t : Tensor T) sizes s :
  infer_sizes (numel (shape t)) sizes = inr s ->
  exists r, reshape t sizes = inr r /\ shape r = s.
Proof. intros Hs. unfold reshape. rewrite Hs. cbn. eauto. Qed.

Lemma permute_0312 (t : Tensor T) a b c d :
  shape t = [a; b; c; d] ->
  exists r, permute t [0; 3; 1; 2]%nat = inr r /\ shape r = [a; d; b; c].
Proof. intros Hs. unfold permute, rank. rewrite Hs. cbn. eauto. Qed.

Lemma permute_021 (t : Tensor T) a b c :
  shape t = [a; b; c] ->
  exists r, permute t [0; 2; 1]%nat = inr r /\ shape r = [a; c; b].
Proof. intros Hs. unfold permute, rank. rewrite Hs. cbn. eauto. Qed.

Lemma interpolate_to_returns iv mode (t : Tensor T) n c hin win h w :
  shape t = [n; c; hin; win] ->
  0 < c -> 0 < hin -> 0 < win -> 0 < h -> 0 < w ->
  exists r, interpolate_to iv mode t h w = inr r /\ shape r = [n; c; h; w].
Proof.
  intros Hs Hc Hhin Hwin Hh Hw. unfold interpolate_to. rewrite Hs.
  destruct (Z.ltb_spec 0 c); [| lia].
  destruct (Z.ltb_spec 0 hin); [| lia].
  destruct (Z.ltb_spec 0 win); [| lia].
  destruct (Z.ltb_spec 0 h); [| lia].
  destruct (Z.ltb_spec 0 w); [| lia].
  cbn. eauto.
Qed.

Lemma in_range3 a b c idx :
  in_range [a; b; c] idx ->
  exists i j k, idx = [i; j; k] /\ 0 <= i < a /\ 0 <= j < b /\ 0 <= k < c.
Proof.
  destruct idx as [| i [| j [| k [| ? ?]]]]; cbn; try tauto.
  intros (Hi & Hj & Hk & _). eauto 10.
Qed.

Lemma size1_shape (t : Tensor T) a b s : shape t = a :: b :: s -> size t 1 = inr b.
Proof. unfold size. now intros ->. Qed.

(** [torch.cat] of three sequences of the same batch size and dimension. *)
Lemma cat1_three (c2 c3 c4 : Tensor T) bs dim n2 n3 n4 :
  shape c2 = [bs; n2; dim] -> shape c3 = [bs; n3; dim] -> shape c4 = [bs; n4; dim] ->
  cat1 [c2; c3; c4]
  = inr (mkTensor [bs; n2 + (n3 + (n4 + 0)); dim] (cat1_at c2 [c3; c4])).
Proof.
  intros H2 H3 H4. unfold cat1.
  rewrite !filter_cons, filter_nil.
  repeat case_decide; try congruence.
  rewrite H2. cbn [forallb foldr]. unfold dim1. rewrite H2, H3, H4.
  unfold shape_eqb. rewrite Z.eqb_refl, bool_decide_eq_true_2 by reflexivity.
  reflexivity.
Qed.

(** [c[:, a:b, :]] and [c[:, a:, :]] within the bounds of [c]. *)
Lemma slice1_within (c : Tensor T) bs n dim a b :
  shape c = [bs; n; dim] -> 0 <= a -> a <= b -> b <= n ->
  slice1 3 c (Some a) (Some b)
  = inr (mkTensor [bs; b - a; dim]
           (fun idx => match idx with
                       | i :: j :: idx' => at_ c (i :: j + a :: idx')
                       | _ => at_ c idx
                       end)).
Proof.
  intros Hs Ha Hab Hb. unfold slice1, rank. rewrite Hs.
  cbn [length Nat.ltb Nat.leb]. unfold Py.clamp, default, from_option, id.
  destruct (Z.ltb_spec a 0); [lia |]. destruct (Z.ltb_spec b 0); [lia |].
  rewrite (Z.min_l a n), (Z.min_l b n), (Z.max_r 0 (b - a)) by lia.
  reflexivity.
Qed.

Lemma slice1_from (c : Tensor T) bs n dim a :
  shape c = [bs; n; dim] -> 0 <= a -> a <= n ->
  slice1 3 c (Some a) None
  = inr (mkTensor [bs; n - a; dim]
           (fun idx => match idx with
                       | i :: j :: idx' => at_ c (i :: j + a :: idx')
                       | _ => at_ c idx
                       end)).
Proof.
  intros Hs Ha Han. unfold slice1, rank. rewrite Hs.
  cbn [length Nat.ltb Nat.leb]. unfold Py.clamp, default, from_option, id.
  destruct (Z.ltb_spec a 0); [lia |]. destruct (Z.ltb_spec n 0); [lia |].
  rewrite (Z.min_l a n), (Z.min_l n n), (Z.max_r 0 (n - a)) by lia.
  reflexivity.
Qed.

Lemma view_spatial (t : Tensor T) bs dim h w r :
  view t [bs; dim; h; w] = inr r -> h <> -1 -> w <> -1 -> spatial r = Some (h, w).
Proof.
  intros Hv Hh Hw. apply reshape_shape, infer_sizes_keeps in Hv as (g & Hs & Hg).
  unfold spatial. rewrite Hs. cbn. now rewrite !Hg.
Qed.

End TensorFacts.

(** ** Python indexing and partitions *)

Section PartitionFacts.

Lemma getitem_lookup {A} (l : list A) (i : nat) a :
  l !! i = Some a -> Py.getitem l (Z.of_nat i) = inr a.
Proof.
  intros Hl. pose proof (lookup_lt_Some _ _ _ Hl) as Hlt. unfold Py.getitem.
  destruct (Z.ltb_spec (Z.of_nat i) 0); [lia |].
  destruct (Z.ltb_spec (Z.of_nat i) 0); [lia |].
  destruct (Z.leb_spec (Z.of_nat (length l)) (Z.of_nat i)); [lia |].
  cbn [orb]. now rewrite Nat2Z.id, Hl.
Qed.

Lemma slice_within {A} (l : list A) (a b : Z) :
  0 <= a -> a <= b -> b <= Z.of_nat (length l) ->
  Py.slice l a b = take (Z.to_nat (b - a)) (drop (Z.to_nat a) l).
Proof.
  intros Ha Hab Hb. unfold Py.slice, Py.clamp.
  destruct (Z.ltb_spec a 0); [lia |]. destruct (Z.ltb_spec b 0); [lia |].
  now rewrite !Z.min_l by lia.
Qed.

Lemma partitions_from_le start n ixs :
  partitions_from start n ixs = true -> start <= n.
Proof.
  revert start. induction ixs as [| ix ixs IH]; intros start; cbn [partitions_from].
  - intros Hs. apply Z.eqb_eq in Hs. lia.
  - destruct (Py.getitem ix 0) as [| lo]; [discriminate |].
    destruct (Py.getitem ix (-1)) as [| hi]; [discriminate |].
    intros Hs. apply andb_true_iff in Hs as [Hs Hrest].
    apply andb_true_iff in Hs as [Hlo Hle].
    apply IH in Hrest. lia.
Qed.

(** The counts of a partition of [start, n) add up to [n - start]. *)
Lemma partitions_from_sum start n ixs :
  partitions_from start n ixs = true -> sum_counts ixs = inr (n - start).
Proof.
  revert start. induction ixs as [| ix ixs IH]; intros start;
    cbn [partitions_from sum_counts].
  - intros Hs. apply Z.eqb_eq in Hs. f_equal. lia.
  - unfold stage_count.
    destruct (Py.getitem ix 0) as [| lo]; [discriminate |].
    destruct (Py.getitem ix (-1)) as [| hi]; [discriminate |].
    intros Hs. apply andb_true_iff in Hs as [Hs Hrest].
    apply andb_true_iff in Hs as [Hlo Hle].
    cbn [res_bind]. rewrite (IH _ Hrest). cbn [res_bind]. f_equal. lia.
Qed.

End PartitionFacts.

(** ** Traces of [forward] *)

Section ForwardTraces.

Context {T Module DeformInputs : Type}.
Variable E : Collaborators T Module DeformInputs.

Local Abbreviation event := (event T Module DeformInputs).
Local Abbreviation EvoViTAdapter := (EvoViTAdapter T Module).

Lemma layer_calls_app (tr1 tr2 : list event) :
  layer_calls (tr1 ++ tr2) = layer_calls tr1 ++ layer_calls tr2.
Proof.
  induction tr1 as [| [l o] tr1 IH]; simpl; [reflexivity |].
  destruct o; simpl; now rewrite ?IH.
Qed.

Lemma layer_calls_quiet (tr : list event) :
  Forall (fun e => is_layer_call e = false) tr -> layer_calls tr = [].
Proof.
  induction 1 as [| [l o] tr He _ IH]; simpl; [reflexivity |].
  destruct o; simpl in *; try exact IH. discriminate.
Qed.

Lemma Forall_trace_at_line {A} (P : event -> Prop) l o (r : res A) :
  P (Ev l o) -> Forall P (trace (at_line l o r)).
Proof. apply Forall_trace_call. Qed.

Lemma Forall_trace_lift {A} (P : event -> Prop) (r : res A) :
  Forall P (trace (lift (Ev := event) r)).
Proof. constructor. Qed.

Lemma Forall_trace_ret {A} (P : event -> Prop) (a : A) :
  Forall P (trace (ret (Ev := event) a)).
Proof. constructor. Qed.

Lemma Forall_trace_assert (P : event -> Prop) c msg :
  Forall P (trace (assert_ (Ev := event) c msg)).
Proof. destruct c; constructor. Qed.

(** Walks through a straight-line computation and leaves one goal per
    event: that the event satisfies the predicate. *)
Ltac walk :=
  repeat first
    [ apply Forall_trace_ret
    | apply Forall_trace_lift
    | apply Forall_trace_assert
    | apply Forall_trace_at_line
    | apply Forall_trace_bind; [| intros ? _]
    | match goal with
      | |- Forall _ (trace (match ?x with _ => _ end)) => destruct x
      end ].

Section Predicate.

Variable P : event -> Prop.

(** [P] holds of every event that is a torch call or the call of a
    collaborator other than an interaction stage, on a line outside
    136-141, and is not a bilinear interpolation. *)
Hypothesis P_plain :
  forall l o, is_layer_call (Ev l o) = false -> is_bilinear (Ev l o) = false ->
              in_vit_feature_block (Ev l o) = false -> P (Ev l o).

Lemma get_pos_embed_events self pe H W :
  Forall P (trace (_get_pos_embed E self pe H W)).
Proof. unfold _get_pos_embed. walk; now apply P_plain. Qed.

Lemma add_level_embed_events self c2 c3 c4 :
  Forall P (trace (_add_level_embed E self c2 c3 c4)).
Proof. unfold _add_level_embed. walk; now apply P_plain. Qed.

Lemma prepare_events self x : Forall P (trace (prepare E self x)).
Proof.
  unfold prepare. walk; now apply P_plain.
Qed.

Lemma split_levels_events c c2 c3 : Forall P (trace (split_levels c c2 c3)).
Proof. unfold split_levels. walk; now apply P_plain. Qed.

Lemma to_spatial_events ln t bs dim h w :
  in_vit_feature_block (Ev ln Torch_view : event) = false ->
  Forall P (trace (to_spatial ln t bs dim h w)).
Proof.
  intros Hln. unfold to_spatial. walk; apply P_plain; try reflexivity; exact Hln.
Qed.

Lemma reshape_levels_events c2 c3 c4 bs dim H W :
  Forall P (trace (reshape_levels c2 c3 c4 bs dim H W)).
Proof. unfold reshape_levels. walk; now apply P_plain. Qed.

Lemma reassemble_events self c c1 c2 c3 bs dim H W :
  Forall P (trace (reassemble E self c c1 c2 c3 bs dim H W)).
Proof.
  unfold reassemble. walk; now apply P_plain.
Qed.

Lemma final_norm_events self c1 c2 c3 c4 :
  Forall P (trace (final_norm E self c1 c2 c3 c4)).
Proof. unfold final_norm. walk; now apply P_plain. Qed.

Lemma add_vit_features_off_events self x c1 c2 c3 c4 bs dim H W :
  add_vit_feature self = false ->
  Forall P (trace (add_vit_features E self x c1 c2 c3 c4 bs dim H W)).
Proof. intros Hoff. unfold add_vit_features. rewrite Hoff. constructor. Qed.

End Predicate.

(** The events of the loop are the calls of the stages, all made by
    line 121. *)
Lemma interaction_loop_events (P : event -> Prop) self d1 d2 H W :
  (forall i args, P (Ev 121 (Call_layer i args))) ->
  forall layers i st,
    Forall P (trace (interaction_loop E self d1 d2 H W i layers st)).
Proof.
  intros HP. induction layers as [| m layers IH]; intros i [[[ct x] c] ca];
    cbn [interaction_loop].
  - constructor.
  - walk; [apply HP | apply IH].
Qed.

(** The loop threads the accumulator it is started with. *)
Lemma interaction_loop_threaded self d1 d2 H W layers :
  forall i ct x c ca,
    threaded E layers i ca
      (layer_calls (trace (interaction_loop E self d1 d2 H W i layers (ct, x, c, ca)))).
Proof.
  induction layers as [| m layers IH]; intros i ct x c ca;
    cbn [interaction_loop]; [exact I |].
  destruct (indexes_at self i) as [e | ix]; [exact I |].
  rewrite bind_lift_inr.
  destruct (Py.getitem ix 0) as [e | lo]; [exact I |].
  rewrite bind_lift_inr.
  destruct (Py.getitem ix (-1)) as [e | hi]; [exact I |].
  rewrite bind_lift_inr.
  match goal with
  | |- context [layer_forward E m ?a] => set (args := a)
  end.
  rewrite trace_bind, layer_calls_app.
  cbn [at_line call trace outcome fst snd layer_calls what app threaded].
  split; [reflexivity |]. split; [reflexivity |].
  destruct (layer_forward E m args) as [e | [[[ct' x'] c'] ca']].
  - reflexivity.
  - apply IH.
Qed.

(** The calls of stages in a forward call are those of its loop. *)
Lemma forward_layer_calls (self : EvoViTAdapter) x :
  layer_calls (trace (forward E self x)) =
  match outcome (prepare E self x) with
  | inr p =>
      layer_calls
        (trace (interaction_loop E self (p_deform_inputs1 p) (p_deform_inputs2 p)
                  (p_H p) (p_W p) 0 (interactions self)
                  (p_cls_token p, p_x p, p_c p, CA_int 0)))
  | inl _ => []
  end.
Proof.
  unfold forward. rewrite trace_bind, layer_calls_app.
  rewrite (layer_calls_quiet (trace (prepare E self x)))
    by (apply prepare_events; auto).
  destruct (outcome (prepare E self x)) as [e | p]; [reflexivity |].
  simpl. rewrite trace_bind, layer_calls_app.
  match goal with
  | |- ?l ++ ?r = ?l => assert (Hr : r = []); [| now rewrite Hr, app_nil_r]
  end.
  apply layer_calls_quiet.
  destruct (outcome _) as [e | [[[ct x'] c] ca]]; [constructor |].
  unfold add_vit_features. walk; reflexivity.
Qed.

End ForwardTraces.

Section ForwardClaims.

Context {T Module DeformInputs : Type}.
Variable E : Collaborators T Module DeformInputs.

Local Abbreviation EvoViTAdapter := (EvoViTAdapter T Module).

(** C5.  A forward call on a backbone whose [stage_wise_prune] is not
    False -- True in particular -- raises the assertion error of line 100
    and leaves an empty trace: no collaborator was called and no torch
    function ran. *)
Theorem forward_stage_wise_prune (self : EvoViTAdapter) (x : Tensor T) :
  stage_wise_prune self <> PyBool false ->
  forward E self x
  = ([], inl (AssertionError
                "Stage-wise prune not implemented in InteractionBlockForEvo")).
Proof.
  intros Hflag. unfold forward, prepare.
  assert (Hf : is_False (stage_wise_prune self) = false).
  { destruct (stage_wise_prune self) as [| [|] | | |]; try reflexivity.
    now contradict Hflag. }
  now rewrite Hf.
Qed.

(** C10.  In every forward call the first stage is called with the
    integer 0 as accumulator and every later stage with the accumulator
    the stage before it returned.  The accumulator is a local of the
    call: a second call on the same backbone starts from 0 again,
    whatever the first call ended with. *)
Theorem cls_attn_starts_at_zero (self : EvoViTAdapter) (x : Tensor T) :
  threaded E (interactions self) 0 (CA_int 0) (layer_calls (trace (forward E self x)))
  /\ (forall ca, head (cls_attn_inputs (trace (forward E self x))) = Some ca ->
                 ca = CA_int 0)
  /\ (forall x2 out,
        outcome (forward E self x) = inr out ->
        let both := let* _ := forward E self x in forward E self x2 in
        layer_calls (trace both)
        = layer_calls (trace (forward E self x))
          ++ layer_calls (trace (forward E self x2))
        /\ threaded E (interactions self) 0 (CA_int 0)
             (layer_calls (trace (forward E self x2)))).
Proof.
  assert (Hthr : forall y, threaded E (interactions self) 0 (CA_int 0)
                             (layer_calls (trace (forward E self y)))).
  { intros y. rewrite forward_layer_calls.
    destruct (outcome (prepare E self y)) as [e | p]; [exact I |].
    apply interaction_loop_threaded. }
  split; [apply Hthr |]. split.
  - intros ca. specialize (Hthr x). unfold cls_attn_inputs.
    destruct (layer_calls (trace (forward E self x))) as [| [j a] rest];
      [discriminate |].
    simpl. intros [= <-].
    destruct (interactions self); simpl in Hthr; [contradiction |].
    now destruct Hthr as (_ & -> & _).
  - intros x2 out Hout both. split; [| apply Hthr].
    unfold both. rewrite trace_bind, Hout. apply layer_calls_app.
Qed.

Lemma at_line_inr {A} l o (r : res A) (tr : list (event T Module DeformInputs)) v :
  at_line l o r = (tr, inr v) -> r = inr v /\ tr = [Ev l o].
Proof. unfold at_line, call. now intros [= <- ->]. Qed.

(** C4.  On a backbone with [add_vit_feature] off, no event of a forward
    call comes from lines 136-141 and none is a bilinear interpolation:
    the token sequence is neither reshaped to spatial form nor resampled.
    When the call returns, what it returns are the four normalisations of
    the four levels [reassemble] (lines 126-134) made from the conv
    sequence, and after [reassemble] only the four normalisations run. *)
Theorem forward_without_vit_feature (self : EvoViTAdapter) (x : Tensor T) :
  add_vit_feature self = false ->
  Forall (fun e => is_bilinear e = false /\ in_vit_feature_block e = false)
         (trace (forward E self x))
  /\ forall tr out,
       forward E self x = (tr, inr out) ->
       exists p ct xt c ca c1 c2 c3 c4 f1 f2 f3 f4 tr1 tr2 tr3,
         prepare E self x = (tr1, inr p)
         /\ interaction_loop E self (p_deform_inputs1 p) (p_deform_inputs2 p)
              (p_H p) (p_W p) 0 (interactions self)
              (p_cls_token p, p_x p, p_c p, CA_int 0) = (tr2, inr (ct, xt, c, ca))
         /\ reassemble E self c (p_c1 p) (p_c2 p) (p_c3 p)
              (p_bs p) (p_dim p) (p_H p) (p_W p) = (tr3, inr (c1, c2, c3, c4))
         /\ module_forward E (norm1 self) c1 = inr f1
         /\ module_forward E (norm2 self) c2 = inr f2
         /\ module_forward E (norm3 self) c3 = inr f3
         /\ module_forward E (norm4 self) c4 = inr f4
         /\ out = [f1; f2; f3; f4]
         /\ tr = tr1 ++ tr2 ++ tr3
                 ++ [Ev 144 (Call_norm 1); Ev 145 (Call_norm 2);
                     Ev 146 (Call_norm 3); Ev 147 (Call_norm 4)].
Proof.
  intros Hoff. split.
  - unfold forward.
    apply Forall_trace_bind; [apply prepare_events; now intros |].
    intros p _. cbv zeta.
    apply Forall_trace_bind;
      [apply interaction_loop_events; now intros |].
    intros [[[ct xt] c] ca] _.
    apply Forall_trace_bind; [apply reassemble_events; now intros |].
    intros [[[c1 c2] c3] c4] _.
    apply Forall_trace_bind;
      [now apply add_vit_features_off_events |].
    intros [[[c1' c2'] c3'] c4'] _.
    apply final_norm_events; now intros.
  - intros tr out H. unfold forward in H.
    apply bind_inr in H as (tr1 & p & tr' & Hp & H & ->). cbv beta zeta in H.
    apply bind_inr in H as (tr2 & [[[ct xt] c] ca] & tr'' & Hloop & H & ->).
    apply bind_inr in H as (tr3 & [[[c1 c2] c3] c4] & tr4 & Hre & H & ->).
    unfold add_vit_features in H. rewrite Hoff, bind_ret_l in H.
    unfold final_norm in H.
    apply bind_inr in H as (t1 & f1 & tr5 & H1 & H & ->).
    apply bind_inr in H as (t2 & f2 & tr6 & H2 & H & ->).
    apply bind_inr in H as (t3 & f3 & tr7 & H3 & H & ->).
    apply bind_inr in H as (t4 & f4 & tr8 & H4 & H & ->).
    apply at_line_inr in H1 as [H1 ->], H2 as [H2 ->], H3 as [H3 ->], H4 as [H4 ->].
    injection H as <- <-.
    exists p, ct, xt, c, ca, c1, c2, c3, c4, f1, f2, f3, f4, tr1, tr2, tr3.
    repeat split; assumption.
Qed.

Lemma bind_at_line {A B} l o (a : A) (f : A -> M (event T Module DeformInputs) B) :
  bind (at_line l o (inr a)) f = (Ev l o :: trace (f a), outcome (f a)).
Proof. unfold bind, at_line, call. now destruct (f a). Qed.

(** Takes a returning sequence of binds apart, one hypothesis per step. *)
Ltac inv_binds H :=
  repeat (apply bind_inr in H as (? & ? & ? & ? & H & ->);
          cbv beta zeta in H;
          repeat match type of H with
                 | context [match ?v with _ => _ end] => is_var v; destruct v
                 end).

Lemma to_spatial_inr ln (t : Tensor T) bs dim h w tr r :
  to_spatial (Module := Module) (DeformInputs := DeformInputs) ln t bs dim h w
  = (tr, inr r) ->
  h <> -1 -> w <> -1 -> spatial r = Some (h, w).
Proof.
  intros Hrun Hh Hw. unfold to_spatial in Hrun. inv_binds Hrun.
  repeat match goal with
         | Hs : at_line _ _ _ = _ |- _ => apply at_line_inr in Hs as [Hs _]
         end.
  injection Hrun as <-. unfold contiguous. eauto using view_spatial.
Qed.

(** The levels [reassemble] returns, on a grid of H by W tokens. *)
Lemma reassemble_inr (self : EvoViTAdapter) c c1 c2 c3 bs dim H W tr c1' c2' c3' c4' :
  reassemble E self c c1 c2 c3 bs dim H W = (tr, inr (c1', c2', c3', c4')) ->
  0 <= H -> 0 <= W ->
  spatial c2' = Some (H * 2, W * 2)
  /\ spatial c3' = Some (H, W)
  /\ spatial c4' = Some (H / 2, W / 2)
  /\ exists u, ConvTranspose2d_forward E (up self) c2' = inr u
               /\ add (scalar_add E) u c1 = inr c1'.
Proof.
  intros Hrun HH HW. unfold reassemble in Hrun. inv_binds Hrun.
  injection Hrun as <- <- <- <-.
  match goal with
  | Hr : reshape_levels _ _ _ _ _ _ _ = _ |- _ =>
      unfold reshape_levels in Hr; inv_binds Hr; injection Hr as <- <- <-
  end.
  repeat match goal with
         | Hs : to_spatial _ _ _ _ _ _ = _ |- _ =>
             apply to_spatial_inr in Hs;
             [| first [lia | pose proof (Z.div_pos H 2); pose proof (Z.div_pos W 2); lia] ..]
         | Hs : at_line _ _ _ = _ |- _ => apply at_line_inr in Hs as [Hs _]
         end.
  subst. eauto 10.
Qed.

Lemma conv_transpose_spatial (m : ConvTranspose2d Module) (t u : Tensor T) h w :
  ConvTranspose2d_forward E m t = inr u ->
  spatial t = Some (h, w) ->
  spatial u = Some (conv_transpose_hw m h w).
Proof.
  unfold ConvTranspose2d_forward, spatial.
  destruct (shape t) as [| n [| c [| h0 [| w0 [| ? ?]]]]]; try discriminate.
  intros Hrun [= -> ->].
  destruct (conv_transpose_hw m h w) as [h' w'].
  destruct (_ && _); [| discriminate].
  now injection Hrun as <-.
Qed.

(** The grid [prepare] hands on is the one the patch embedding returned. *)
Lemma prepare_grid (self : EvoViTAdapter) x tr p xt H W :
  prepare E self x = (tr, inr p) ->
  patch_embed_forward E (patch_embed (base self)) x = inr (xt, H, W) ->
  p_H p = H /\ p_W p = W.
Proof.
  intros Hrun Hpe. unfold prepare in Hrun. inv_binds Hrun.
  injection Hrun as _ <-. cbn [p_H p_W].
  match goal with
  | Hs : at_line 109%nat _ _ = _ |- _ =>
      apply at_line_inr in Hs as [Hs _]; rewrite Hpe in Hs; now injection Hs as <- <- <-
  end.
Qed.

Lemma build_interactions_length cfg count :
  forall i tr ms,
    build_interactions E cfg i count = (tr, inr ms) -> length ms = count.
Proof.
  induction count as [| count IH]; intros i tr ms Hrun; cbn [build_interactions] in Hrun.
  - now injection Hrun as _ <-.
  - inv_binds Hrun. injection Hrun as _ <-. cbn [length]. f_equal. eauto.
Qed.

(** What [__init__] leaves in the backbone it returns. *)
Lemma init_inr (a : Args.t) tr (self : EvoViTAdapter) :
  __init__ E a = (tr, inr self) ->
  interaction_indexes self = Args.interaction_indexes a
  /\ (exists ixs, Args.interaction_indexes a = Some ixs
                  /\ length (interactions self) = length ixs)
  /\ num_block self = Z.of_nat (length (blocks (base self)))
  /\ add_vit_feature self = Args.add_vit_feature a
  /\ stage_wise_prune self = PyBool false
  /\ pretrain_size self = (Args.pretrain_size a, Args.pretrain_size a)
  /\ kernel_size (up self) = (2, 2) /\ stride (up self) = (2, 2)
  /\ padding (up self) = (0, 0) /\ output_padding (up self) = (0, 0)
  /\ dilation (up self) = (1, 1).
Proof.
  intros Hrun. unfold __init__ in Hrun. inv_binds Hrun.
  injection Hrun as _ <-.
  cbn [interaction_indexes interactions num_block add_vit_feature stage_wise_prune
       pretrain_size up kernel_size stride padding output_padding dilation base
       base_apply blocks].
  rewrite !length_map.
  repeat split.
  match goal with
  | Hn : lift (len_indexes _) = _, Hb : build_interactions _ _ _ _ = _,
    Hw : at_line 63%nat _ _ = _ |- _ =>
      apply build_interactions_length in Hb;
      apply at_line_inr in Hw as [Hw _]; injection Hw as <-;
      unfold lift, len_indexes in Hn;
      destruct (Args.interaction_indexes a) as [ixs |]; [| discriminate];
      injection Hn as _ <-;
      exists ixs; split; [reflexivity |]; now rewrite length_map
  end.
Qed.

(** C2.  A forward call whose patch embedding yields a grid of 20 by 20
    tokens and which returns has made, by lines 126-134, three levels of
    spatial sizes (40, 40), (20, 20) and (10, 10), and a transposed
    convolution of the first of them of spatial size (80, 80), which is
    added to the finest level of the spatial prior module. *)
Theorem pyramid_sizes_at_20 (a : Args.t) (self : EvoViTAdapter) tr0 (x xt : Tensor T)
    tr out :
  __init__ E a = (tr0, inr self) ->
  patch_embed_forward E (patch_embed (base self)) x = inr (xt, 20, 20) ->
  forward E self x = (tr, inr out) ->
  exists p ct xt' c ca tr1 tr2 tr3 c1 c2 c3 c4 u,
    prepare E self x = (tr1, inr p)
    /\ interaction_loop E self (p_deform_inputs1 p) (p_deform_inputs2 p)
         (p_H p) (p_W p) 0 (interactions self)
         (p_cls_token p, p_x p, p_c p, CA_int 0) = (tr2, inr (ct, xt', c, ca))
    /\ reassemble E self c (p_c1 p) (p_c2 p) (p_c3 p) (p_bs p) (p_dim p) 20 20
       = (tr3, inr (c1, c2, c3, c4))
    /\ spatial c2 = Some (40, 40)
    /\ spatial c3 = Some (20, 20)
    /\ spatial c4 = Some (10, 10)
    /\ ConvTranspose2d_forward E (up self) c2 = inr u
    /\ spatial u = Some (80, 80)
    /\ add (scalar_add E) u (p_c1 p) = inr c1.
Proof.
  intros Hinit Hpe Hrun.
  apply init_inr in Hinit as (_ & _ & _ & _ & _ & _ & Hk & Hs & Hp & Hop & Hd).
  unfold forward in Hrun.
  apply bind_inr in Hrun as (tr1 & p & tr' & Hprep & Hrun & ->). cbv beta zeta in Hrun.
  apply bind_inr in Hrun as (tr2 & [[[ct xt'] c] ca] & tr'' & Hloop & Hrun & ->).
  apply bind_inr in Hrun as (tr3 & [[[c1 c2] c3] c4] & tr4 & Hre & _ & ->).
  destruct (prepare_grid _ _ _ _ _ _ _ Hprep Hpe) as [HH HW].
  rewrite HH, HW in Hre.
  destruct (reassemble_inr _ _ _ _ _ _ _ _ _ _ _ _ _ _ Hre)
    as (H2 & H3 & H4 & u & Hu & Hadd); [lia | lia |].
  exists p, ct, xt', c, ca, tr1, tr2, tr3, c1, c2, c3, c4, u.
  repeat split; try assumption.
  rewrite (conv_transpose_spatial _ _ _ _ _ Hu H2).
  unfold conv_transpose_hw. now rewrite Hk, Hs, Hp, Hop, Hd.
Qed.

(** C3.  Three sequences of the same batch size and dimension are
    concatenated along the token axis (line 106) and the result is cut
    again by lines 127-129.  The three slices are the three sequences,
    element for element; concatenating them again gives the concatenated
    sequence, element for element; and their lengths add up to its
    length. *)
Theorem conv_sequence_roundtrip (c2 c3 c4 : Tensor T) (bs dim n2 n3 n4 : Z) :
  shape c2 = [bs; n2; dim] -> shape c3 = [bs; n3; dim] -> shape c4 = [bs; n4; dim] ->
  0 <= n2 -> 0 <= n3 -> 0 <= n4 ->
  exists c tr s2 s3 s4 c',
    cat1 [c2; c3; c4] = inr c
    /\ split_levels (Module := Module) (DeformInputs := DeformInputs) c c2 c3
       = (tr, inr (s2, s3, s4))
    /\ teq s2 c2 /\ teq s3 c3 /\ teq s4 c4
    /\ cat1 [s2; s3; s4] = inr c' /\ teq c' c
    /\ exists m2 m3 m4 m,
         size s2 1 = inr m2 /\ size s3 1 = inr m3 /\ size s4 1 = inr m4
         /\ size c 1 = inr m /\ m2 + m3 + m4 = m.
Proof.
  intros H2 H3 H4 Hn2 Hn3 Hn4.
  pose proof (cat1_three c2 c3 c4 _ _ _ _ _ H2 H3 H4) as Hcat.
  set (c := mkTensor [bs; n2 + (n3 + (n4 + 0)); dim] (cat1_at c2 [c3; c4])) in *.
  assert (Hc : shape c = [bs; n2 + (n3 + (n4 + 0)); dim]) by reflexivity.
  pose proof (slice1_within c _ _ _ 0 n2 Hc) as Hs2.
  pose proof (slice1_within c _ _ _ (n2 - 0) (n2 - 0 + n3) Hc) as Hs3.
  pose proof (slice1_from c _ _ _ (n2 - 0 + (n2 - 0 + n3 - (n2 - 0))) Hc) as Hs4.
  set (s2 := mkTensor [bs; n2 - 0; dim] _) in Hs2.
  set (s3 := mkTensor [bs; n2 - 0 + n3 - (n2 - 0); dim] _) in Hs3.
  set (s4 := mkTensor _ _) in Hs4.
  assert (Hrun : exists tr,
             split_levels (Module := Module) (DeformInputs := DeformInputs) c c2 c3
             = (tr, inr (s2, s3, s4))).
  { unfold split_levels.
    rewrite (size1_shape c2 _ _ _ H2), bind_lift_inr. cbv beta.
    rewrite Hs2, bind_at_line by lia.
    change (size s2 1) with (inr (n2 - 0) : res Z).
    rewrite !bind_lift_inr, (size1_shape c3 _ _ _ H3), bind_lift_inr.
    rewrite Hs3, bind_at_line by lia.
    change (size s3 1) with (inr (n2 - 0 + n3 - (n2 - 0)) : res Z).
    rewrite !bind_lift_inr.
    rewrite Hs4, bind_at_line by lia.
    eexists. reflexivity. }
  destruct Hrun as [tr Hrun].
  assert (E2 : teq s2 c2).
  { split; [cbn; rewrite H2; f_equal; f_equal; lia |].
    intros idx Hidx. apply in_range3 in Hidx as (i & j & k & -> & Hi & Hj & Hk).
    cbn. unfold dim1. rewrite H2. cbn.
    destruct (Z.ltb_spec (j + 0) n2); [| lia].
    repeat f_equal; lia. }
  assert (E3 : teq s3 c3).
  { split; [cbn; rewrite H3; f_equal; f_equal; lia |].
    intros idx Hidx. apply in_range3 in Hidx as (i & j & k & -> & Hi & Hj & Hk).
    cbn. unfold dim1. rewrite H2, H3. cbn.
    destruct (Z.ltb_spec (j + (n2 - 0)) n2); [lia |].
    destruct (Z.ltb_spec (j + (n2 - 0) - n2) n3); [| lia].
    repeat f_equal; lia. }
  assert (E4 : teq s4 c4).
  { split; [cbn; rewrite H4; f_equal; f_equal; lia |].
    intros idx Hidx. apply in_range3 in Hidx as (i & j & k & -> & Hi & Hj & Hk).
    cbn. unfold dim1. rewrite H2, H3. cbn.
    destruct (Z.ltb_spec (j + (n2 - 0 + (n2 - 0 + n3 - (n2 - 0)))) n2); [lia |].
    destruct (Z.ltb_spec (j + (n2 - 0 + (n2 - 0 + n3 - (n2 - 0))) - n2) n3); [lia |].
    repeat f_equal; lia. }
  pose proof (cat1_three s2 s3 s4 _ _ _ _ _ eq_refl eq_refl eq_refl) as Hcat'.
  match type of Hcat' with _ = inr ?t => set (c' := t) in * end.
  exists c, tr, s2, s3, s4, c'.
  split; [exact Hcat |]. split; [exact Hrun |]. split; [exact E2 |].
  split; [exact E3 |]. split; [exact E4 |]. split; [exact Hcat' |].
  split; [split |].
  - cbn. f_equal. f_equal. lia.
  - intros idx Hidx. apply in_range3 in Hidx as (i & j & k & -> & Hi & Hj & Hk).
    cbn in Hj. cbn. unfold dim1. rewrite H2, H3. cbn.
    destruct (Z.ltb_spec j (n2 - 0)).
    + replace (j + 0) with j by lia. reflexivity.
    + destruct (Z.ltb_spec (j - (n2 - 0)) (n2 - 0 + n3 - (n2 - 0))).
      * replace (j - (n2 - 0) + (n2 - 0)) with j by lia. reflexivity.
      * replace (j - (n2 - 0) - (n2 - 0 + n3 - (n2 - 0))
                 + (n2 - 0 + (n2 - 0 + n3 - (n2 - 0)))) with j by lia.
        reflexivity.
  - exists (n2 - 0), (n2 - 0 + n3 - (n2 - 0)),
      (n2 + (n3 + (n4 + 0)) - (n2 - 0 + (n2 - 0 + n3 - (n2 - 0)))),
      (n2 + (n3 + (n4 + 0))).
    repeat split. lia.
Qed.

(** The stages of a loop over a partition are handed the blocks from the
    start of the partition on, stage after stage. *)
Lemma interaction_loop_blocks (self : EvoViTAdapter) ixs d1 d2 H W :
  interaction_indexes self = Some ixs ->
  forall layers i start st tr st',
    length layers = length (drop i ixs) ->
    partitions_from start (Z.of_nat (length (blocks (base self)))) (drop i ixs) = true ->
    0 <= start ->
    interaction_loop E self d1 d2 H W i layers st = (tr, inr st') ->
    blocks_run tr = drop (Z.to_nat start) (blocks (base self))
    /\ map fst (layer_calls tr) = seq i (length layers)
    /\ map (fun ia => la_indexes (snd ia)) (layer_calls tr) = drop i ixs.
Proof.
  intros Hix. induction layers as [| m layers IH];
    intros i start st tr st' Hlen Hpart Hstart Hrun; cbn [interaction_loop] in Hrun.
  - injection Hrun as <- _.
    destruct (drop i ixs); [| discriminate]. cbn in Hpart.
    apply Z.eqb_eq in Hpart. subst start.
    rewrite Nat2Z.id, drop_all. repeat split; reflexivity.
  - destruct st as [[[ct x] c] ca].
    destruct (drop i ixs) as [| ix rest] eqn:Hdrop; [discriminate |].
    assert (Hi : ixs !! i = Some ix).
    { rewrite <- (Nat.add_0_r i), <- lookup_drop, Hdrop. reflexivity. }
    assert (Hrest : drop (S i) ixs = rest).
    { rewrite <- Nat.add_1_r, <- drop_drop, Hdrop. reflexivity. }
    unfold indexes_at in Hrun. rewrite Hix, (getitem_lookup _ _ _ Hi) in Hrun.
    rewrite bind_lift_inr in Hrun.
    cbn [partitions_from] in Hpart.
    destruct (Py.getitem ix 0) as [| lo]; [discriminate |].
    destruct (Py.getitem ix (-1)) as [| hi]; [discriminate |].
    apply andb_true_iff in Hpart as [Hpart Hnext].
    apply andb_true_iff in Hpart as [Hlo Hle].
    apply Z.eqb_eq in Hlo. apply Z.leb_le in Hle. subst lo.
    pose proof (partitions_from_le _ _ _ Hnext) as Hhi.
    rewrite !bind_lift_inr in Hrun.
    apply bind_inr in Hrun as (tr1 & st1 & tr2 & Hcall & Hrun & ->).
    apply at_line_inr in Hcall as [_ ->].
    rewrite <- Hrest in Hnext.
    destruct (IH (S i) (hi + 1) st1 tr2 st') as (IHb & IHs & IHi);
      [cbn in Hlen; rewrite Hrest; lia | exact Hnext | lia | exact Hrun |].
    split; [| split].
    + unfold blocks_run in *. cbn [app layer_calls what map concat snd la_blocks].
      rewrite IHb, slice_within by lia.
      replace (Z.to_nat (hi + 1))
        with (Z.to_nat start + Z.to_nat (hi + 1 - start))%nat by lia.
      rewrite <- drop_drop. apply take_drop.
    + cbn [app layer_calls what map fst length seq]. now rewrite IHs.
    + cbn [app layer_calls what map snd la_indexes]. now rewrite IHi, Hrest.
Qed.

(** C1.  On a backbone constructed with [interaction_indexes] that cut
    the blocks [0, numBlocks) into contiguous ranges in ascending order,
    a forward call that returns has called one stage per range, in order,
    and handed the stages every transformer block exactly once, in the
    order of the block list; the per-stage block counts
    [indexes[-1] + 1 - indexes[0]] add up to numBlocks. *)
Theorem stages_cover_blocks (a : Args.t) (self : EvoViTAdapter) tr0 ixs
    (x : Tensor T) tr out :
  __init__ E a = (tr0, inr self) ->
  Args.interaction_indexes a = Some ixs ->
  valid_partition (num_block self) ixs = true ->
  forward E self x = (tr, inr out) ->
  blocks_run tr = blocks (base self)
  /\ map fst (layer_calls tr) = seq 0 (length ixs)
  /\ map (fun ia => la_indexes (snd ia)) (layer_calls tr) = ixs
  /\ length (interactions self) = length ixs
  /\ sum_counts ixs = inr (num_block self).
Proof.
  intros Hinit Hixs Hvalid Hrun.
  apply init_inr in Hinit as (Hix & (ixs' & Hixs' & Hlen) & Hnum & _).
  rewrite Hixs in Hixs'. injection Hixs' as <-. rewrite Hixs in Hix.
  unfold valid_partition in Hvalid.
  pose proof (partitions_from_sum _ _ _ Hvalid) as Hsum.
  rewrite Z.sub_0_r in Hsum.
  assert (Hcalls : layer_calls tr = layer_calls (trace (forward E self x)))
    by now rewrite Hrun.
  rewrite forward_layer_calls in Hcalls.
  unfold forward in Hrun.
  apply bind_inr in Hrun as (tr1 & p & tr' & Hprep & Hrun & ->). cbv beta zeta in Hrun.
  apply bind_inr in Hrun as (tr2 & st & tr'' & Hloop & _ & ->).
  rewrite Hprep in Hcalls. cbn [outcome snd] in Hcalls.
  rewrite Hloop in Hcalls. cbn [trace fst] in Hcalls.
  rewrite Hnum in Hvalid.
  destruct (interaction_loop_blocks self ixs _ _ _ _ Hix _ 0%nat 0 _ _ _
              (eq_trans Hlen eq_refl) Hvalid (Z.le_refl 0) Hloop) as (Hb & Hs & Hi).
              unfold blocks_run in *. rewrite Hcalls.
              repeat split; [exact Hb | now rewrite Hs, Hlen | exact Hi | exact Hlen | exact Hsum].
Qed.

(** C7.  For a target grid of H by W tokens, H and W positive, the
    sequence [_get_pos_embed] returns has exactly H * W tokens, whatever
    [pretrain_size] is; and it does return one when the embedding it is
    given is a grid of (pretrain_size // 16) squared tokens. *)
Theorem pos_embed_length (self : EvoViTAdapter) (pos_embed : Tensor T) (H W : Z) :
  0 < H -> 0 < W ->
  (forall tr r,
     _get_pos_embed E self pos_embed H W = (tr, inr r) -> size r 1 = inr (H * W))
  /\ (forall D,
        0 < D ->
        0 < fst (pretrain_size self) / 16 ->
        0 < snd (pretrain_size self) / 16 ->
        shape pos_embed
        = [1; (fst (pretrain_size self) / 16) * (snd (pretrain_size self) / 16); D] ->
        exists tr r,
          _get_pos_embed E self pos_embed H W = (tr, inr r)
          /\ shape r = [1; H * W; D]).
Proof.
  intros HH HW. split.
  - intros tr r Hrun. unfold _get_pos_embed in Hrun.
    apply bind_inr in Hrun as (tr1 & t1 & tr1' & H1 & Hrun & ->).
    apply bind_inr in Hrun as (tr2 & t2 & tr2' & H2 & Hrun & ->).
    apply bind_inr in Hrun as (tr3 & t3 & tr3' & H3 & Hrun & ->).
    apply bind_inr in Hrun as (tr4 & t4 & tr4' & H4 & Hrun & ->).
    apply at_line_inr in H3 as [H3 _], H4 as [H4 _], Hrun as [H5 _].
    apply interpolate_to_shape in H3 as (_ & _ & n & c & Hs3).
    apply reshape_shape, infer_sizes_keeps in H4 as (g & Hs4 & Hg).
    apply permute_shape in H5 as [_ Hs5].
    unfold size. rewrite Hs5, Hs4. cbn.
    rewrite Hg by nia. reflexivity.
  - intros D HD Hg0 Hg1 Hshape.
    set (g0 := fst (pretrain_size self) / 16) in *.
    set (g1 := snd (pretrain_size self) / 16) in *.
    assert (Hn1 : numel [1; g0 * g1; D] = D * (g0 * g1)) by (cbn [numel]; lia).
    assert (Hn2 : numel [1; D; H; W] = D * (1 * (H * W))) by (cbn [numel]; lia).
    destruct (reshape_returns pos_embed [1; g0; g1; -1] [1; g0; g1; D])
      as (t1 & H1 & Hs1).
    { rewrite Hshape, infer_sizes_last, Hn1, Z_div_mult by
        first [assumption | nia | rewrite Hn1; apply Z_mod_mult].
      reflexivity. }
    destruct (permute_0312 t1 _ _ _ _ Hs1) as (t2 & H2 & Hs2).
    destruct (interpolate_to_returns (interp_values E) Bicubic t2 _ _ _ _ H W Hs2)
      as (t3 & H3 & Hs3); try assumption.
    destruct (reshape_returns t3 [1; -1; H * W] [1; D; H * W]) as (t4 & H4 & Hs4).
    { rewrite Hs3, infer_sizes_middle, Hn2, Z_div_mult by
        first [lia | nia | rewrite Hn2; apply Z_mod_mult].
      reflexivity. }
    destruct (permute_021 t4 _ _ _ Hs4) as (r & H5 & Hs5).
    unfold _get_pos_embed, interpolate_size. fold g0 g1.
    rewrite H1, bind_at_line, H2, bind_at_line, H3, bind_at_line, H4, bind_at_line, H5.
    eexists _, r. split; [reflexivity | exact Hs5].
Qed.

End ForwardClaims.

(** ** The theorems at work on the small instance *)

Lemma forward_stage_wise_prune_witness :
  forward Toy.E Toy.model_pruning Toy.image
  = ([], inl (AssertionError
                "Stage-wise prune not implemented in InteractionBlockForEvo")).
Proof.
  apply (forward_stage_wise_prune Toy.E Toy.model_pruning Toy.image).
  vm_compute. discriminate.
Defined.

Lemma init_rejects_layer_scale_witness :
  exists e,
    __init__ Toy.E (Args.with_kwargs Toy.args Toy.kw_layer_scale) = ([], inl e)
    /\ ((forall k, k ∈ popped_keys ->
                   is_Some (Args.kwargs (Args.with_kwargs Toy.args Toy.kw_layer_scale) !! k)) ->
        e = AssertionError "Pytorch Better Transformer does not support layer scale"
        \/ e = AssertionError "use load_from instead of pretrained").
Proof.
  apply (init_rejects_layer_scale_and_pretrained
           Toy.E (Args.with_kwargs Toy.args Toy.kw_layer_scale)).
  left. vm_compute. discriminate.
Defined.

Lemma init_missing_key_witness :
  exists e,
    __init__ Toy.E (Args.with_kwargs Toy.args Toy.kw_no_pretrained) = ([], inl e)
    /\ e = AssertionError "Pytorch Better Transformer does not support layer scale".
Proof.
  destruct (init_missing_key Toy.E (Args.with_kwargs Toy.args Toy.kw_no_pretrained))
    as (e & Hrun & He).
  - exists "pretrained". split; [| vm_compute; reflexivity].
    unfold popped_keys. rewrite !elem_of_cons. tauto.
  - exists e. split; [exact Hrun | exact He].
Defined.

(** C9, as stated, fails here: a call that leaves 'pretrained' out fails,
    but not with a key-lookup error.  With layer scale switched on the
    assertion of line 27 fails before 'pretrained' is popped. *)
Lemma init_missing_pretrained_counterexample :
  "pretrained" ∈ popped_keys
  /\ Args.kwargs (Args.with_kwargs Toy.args Toy.kw_no_pretrained) !! "pretrained" = None
  /\ __init__ Toy.E (Args.with_kwargs Toy.args Toy.kw_no_pretrained)
     = ([], inl (AssertionError
                   "Pytorch Better Transformer does not support layer scale"))
  /\ ~ exists k, outcome (__init__ Toy.E (Args.with_kwargs Toy.args Toy.kw_no_pretrained))
                 = inl (KeyError k).
Proof.
  split; [unfold popped_keys; rewrite !elem_of_cons; tauto |].
  split; [vm_compute; reflexivity |].
  split; [vm_compute; reflexivity |].
  intros [k Hk]. vm_compute in Hk. discriminate.
Qed.

Lemma legacy_flags_ignored_witness :
  __init__ Toy.E (Args.with_kwargs Toy.args Toy.kw)
  = __init__ Toy.E (Args.with_kwargs Toy.args Toy.kw_legacy)
  /\ forall x,
       (let* self := __init__ Toy.E (Args.with_kwargs Toy.args Toy.kw) in
        forward Toy.E self x)
       = (let* self := __init__ Toy.E (Args.with_kwargs Toy.args Toy.kw_legacy) in
          forward Toy.E self x).
Proof.
  apply (legacy_flags_ignored Toy.E Toy.args Toy.kw Toy.kw_legacy).
  split; [| split].
  - intros k Hwa Hws. unfold Toy.kw_legacy.
    now rewrite !lookup_insert_ne by congruence.
  - split; intros _; vm_compute; eauto.
  - split; intros _; vm_compute; eauto.
Defined.

Lemma forward_without_vit_feature_witness :
  Forall (fun e => is_bilinear e = false /\ in_vit_feature_block e = false)
         (trace (forward Toy.E Toy.model_conv_only Toy.image)).
Proof.
  apply (forward_without_vit_feature Toy.E Toy.model_conv_only Toy.image).
  reflexivity.
Defined.

Lemma cls_attn_starts_at_zero_witness :
  exists ca,
    head (cls_attn_inputs (trace (forward Toy.E Toy.model Toy.image))) = Some ca
    /\ ca = CA_int 0.
Proof.
  destruct (cls_attn_starts_at_zero Toy.E Toy.model Toy.image) as (_ & Hzero & _).
  eexists. split; [vm_compute; reflexivity |].
  apply Hzero. vm_compute. reflexivity.
Defined.

Lemma pos_embed_length_witness :
  exists tr r,
    _get_pos_embed Toy.E Toy.model (Toy.iota [1; 196; 4]) 20 20 = (tr, inr r)
    /\ shape r = [1; 400; 4]
    /\ size r 1 = inr 400.
Proof.
  destruct (pos_embed_length Toy.E Toy.model (Toy.iota [1; 196; 4]) 20 20)
    as [Hlen Hret]; [lia | lia |].
  destruct (Hret 4) as (tr & r & Hrun & Hshape);
    [lia | vm_compute; reflexivity | vm_compute; reflexivity | reflexivity |].
  exists tr, r. split; [exact Hrun |]. split; [exact Hshape |].
  exact (Hlen tr r Hrun).
Defined.

Lemma conv_sequence_roundtrip_witness :
  exists c tr s2 s3 s4 c',
    cat1 [Toy.seq4; Toy.seq2; Toy.seq1] = inr c
    /\ split_levels (Module := nat) (DeformInputs := unit) c Toy.seq4 Toy.seq2
       = (tr, inr (s2, s3, s4))
    /\ teq s2 Toy.seq4 /\ teq s3 Toy.seq2 /\ teq s4 Toy.seq1
    /\ cat1 [s2; s3; s4] = inr c' /\ teq c' c
    /\ exists m2 m3 m4 m,
         size s2 1 = inr m2 /\ size s3 1 = inr m3 /\ size s4 1 = inr m4
         /\ size c 1 = inr m /\ m2 + m3 + m4 = m.
Proof.
  apply (conv_sequence_roundtrip (Module := nat) (DeformInputs := unit)
           Toy.seq4 Toy.seq2 Toy.seq1 1 2 4 2 1);
    first [reflexivity | lia].
Defined.

Lemma stages_cover_blocks_witness :
  blocks_run (trace (forward Toy.E Toy.model Toy.image)) = seq 0 12
  /\ map fst (layer_calls (trace (forward Toy.E Toy.model Toy.image))) = [0; 1; 2; 3]%nat
  /\ map (fun ia => la_indexes (snd ia))
         (layer_calls (trace (forward Toy.E Toy.model Toy.image)))
     = [[0; 2]; [3; 5]; [6; 8]; [9; 11]]
  /\ length (interactions Toy.model) = 4%nat
  /\ sum_counts [[0; 2]; [3; 5]; [6; 8]; [9; 11]] = inr 12.
Proof.
  apply (stages_cover_blocks Toy.E Toy.args Toy.model
           (trace (__init__ Toy.E Toy.args)) [[0; 2]; [3; 5]; [6; 8]; [9; 11]]
           Toy.image (trace (forward Toy.E Toy.model Toy.image)) Toy.features).
  - vm_compute. reflexivity.
  - reflexivity.
  - vm_compute. reflexivity.
  - apply returns_value. vm_compute. reflexivity.
Defined.

Lemma pyramid_sizes_at_20_witness :
  exists p ct xt' c ca tr1 tr2 tr3 c1 c2 c3 c4 u,
    prepare Toy.E Toy.model Toy.image = (tr1, inr p)
    /\ interaction_loop Toy.E Toy.model (p_deform_inputs1 p) (p_deform_inputs2 p)
         (p_H p) (p_W p) 0 (interactions Toy.model)
         (p_cls_token p, p_x p, p_c p, CA_int 0) = (tr2, inr (ct, xt', c, ca))
    /\ reassemble Toy.E Toy.model c (p_c1 p) (p_c2 p) (p_c3 p) (p_bs p) (p_dim p) 20 20
       = (tr3, inr (c1, c2, c3, c4))
    /\ spatial c2 = Some (40, 40)
    /\ spatial c3 = Some (20, 20)
    /\ spatial c4 = Some (10, 10)
    /\ ConvTranspose2d_forward Toy.E (up Toy.model) c2 = inr u
    /\ spatial u = Some (80, 80)
    /\ add (scalar_add Toy.E) u (p_c1 p) = inr c1.
Proof.
  apply (pyramid_sizes_at_20 Toy.E Toy.args Toy.model (trace (__init__ Toy.E Toy.args))
           Toy.image (Toy.iota [1; 400; 4])
           (trace (forward Toy.E Toy.model Toy.image)) Toy.features).
  - vm_compute. reflexivity.
  - vm_compute. reflexivity.
  - apply returns_value. vm_compute. reflexivity.
Defined.

(** * More of the code *)

(** ** More on the constructor *)

Section ConstructionExtras.

Context {T Module DeformInputs : Type}.
Variable E : Collaborators T Module DeformInputs.

Local Abbreviation event := (event T Module DeformInputs).
Local Abbreviation EvoViTAdapter := (EvoViTAdapter T Module).

Ltac inv_binds H :=
  repeat (apply bind_inr in H as (? & ? & ? & ? & H & ->);
          cbv beta zeta in H;
          repeat match type of H with
                 | context [match ?v with _ => _ end] => is_var v; destruct v
                 end).

Lemma bind_ext {A B} (m : M event A) (k1 k2 : A -> M event B) :
  (forall a, k1 a = k2 a) -> bind m k1 = bind m k2.
Proof. intros Hk. destruct m as [tr [e | a]]; cbn; [reflexivity | now rewrite Hk]. Qed.

(** Past its checks, [__init__] is lines 29-65 on the popped dictionary. *)
Lemma init_after_checks (a : Args.t) :
  checks_outcome (Args.kwargs a) = None ->
  __init__ E a = build E a (base_kwargs (Args.kwargs a)).
Proof.
  unfold checks_outcome, __init__, base_kwargs. intros H.
  destruct (Args.kwargs a !! "window_attn") as [wa |] eqn:Hwa; [| discriminate].
  rewrite (pop_present _ _ _ Hwa), bind_ret_l.
  destruct (Args.kwargs a !! "window_size") as [ws |] eqn:Hws; [| discriminate].
  rewrite (pop_present _ "window_size" ws), bind_ret_l
    by now rewrite lookup_delete_ne.
  destruct (Args.kwargs a !! "layer_scale") as [ls |] eqn:Hls; [| discriminate].
  rewrite (pop_present _ "layer_scale" ls), bind_ret_l
    by now rewrite !lookup_delete_ne.
  destruct (is_False ls); [| discriminate]. simpl assert_. rewrite bind_ret_l.
  destruct (Args.kwargs a !! "pretrained") as [pt |] eqn:Hpt; [| discriminate].
  rewrite (pop_present _ "pretrained" pt), bind_ret_l
    by now rewrite !lookup_delete_ne.
  destruct (is_None pt); [| discriminate]. simpl assert_. rewrite bind_ret_l.
  reflexivity.
Qed.

Lemma base_kwargs_lookup (kw : gmap string pyval) k :
  base_kwargs kw !! k = if bool_decide (k ∈ popped_keys) then None else kw !! k.
Proof.
  unfold base_kwargs, popped_keys.
  destruct (decide (k = "pretrained")) as [-> | H4].
  { rewrite lookup_delete_eq. rewrite bool_decide_eq_true_2; [reflexivity |].
    rewrite !elem_of_cons. tauto. }
  rewrite lookup_delete_ne by congruence.
  destruct (decide (k = "layer_scale")) as [-> | H3].
  { rewrite lookup_delete_eq. rewrite bool_decide_eq_true_2; [reflexivity |].
    rewrite !elem_of_cons. tauto. }
  rewrite lookup_delete_ne by congruence.
  destruct (decide (k = "window_size")) as [-> | H2].
  { rewrite lookup_delete_eq. rewrite bool_decide_eq_true_2; [reflexivity |].
    rewrite !elem_of_cons. tauto. }
  rewrite lookup_delete_ne by congruence.
  destruct (decide (k = "window_attn")) as [-> | H1].
  { rewrite lookup_delete_eq. rewrite bool_decide_eq_true_2; [reflexivity |].
    rewrite !elem_of_cons. tauto. }
  rewrite lookup_delete_ne by congruence.
  rewrite bool_decide_eq_false_2; [reflexivity |].
  rewrite !elem_of_cons, elem_of_nil. tauto.
Qed.

(** X1.  When lines 25-28 pass, the base class is constructed with the
    keyword dictionary without the four popped keys: none of them is
    forwarded, and every other key is forwarded with its value. *)
Theorem base_class_kwargs (a : Args.t) :
  checks_outcome (Args.kwargs a) = None ->
  exists kw,
    __init__ E a = build E a kw
    /\ (forall k, k ∈ popped_keys -> kw !! k = None)
    /\ (forall k, k ∉ popped_keys -> kw !! k = Args.kwargs a !! k).
Proof.
  intros Hc. exists (base_kwargs (Args.kwargs a)).
  split; [now apply init_after_checks |].
  split; intros k Hk; rewrite base_kwargs_lookup.
  - now rewrite bool_decide_eq_true_2.
  - now rewrite bool_decide_eq_false_2.
Qed.

(** X2.  With [interaction_indexes] left at its default None, a call that
    passes the checks of lines 25-28 builds the base class, the level
    embedding and the spatial prior module, and then raises TypeError at
    [len(interaction_indexes)]: no interaction stage is built. *)
Theorem init_without_indexes (a : Args.t) b m :
  checks_outcome (Args.kwargs a) = None ->
  Args.interaction_indexes a = None ->
  EvoVisionTransformer_init E (Args.num_heads a) (Args.args a)
    (base_kwargs (Args.kwargs a)) = inr b ->
  0 <= embed_dim b ->
  SpatialPriorModule_init E (Args.conv_inplane a) (embed_dim b) = inr m ->
  __init__ E a
  = ([Ev 29 New_base; Ev 44 New_parameter; Ev 45 New_spm], inl TypeError).
Proof.
  intros Hc Hix Hb Hdim Hspm. rewrite (init_after_checks a Hc). unfold build.
  rewrite Hb, bind_at_line. cbv zeta. unfold zeros. cbn [existsb orb].
  destruct (Z.ltb_spec 3 0); [lia |].
  destruct (Z.ltb_spec (embed_dim b) 0); [lia |].
  cbn [orb]. rewrite bind_at_line, Hspm, bind_at_line, Hix. reflexivity.
Qed.

Lemma stages_built_app (tr1 tr2 : list event) :
  stages_built (tr1 ++ tr2) = stages_built tr1 ++ stages_built tr2.
Proof.
  induction tr1 as [| [l o] tr1 IH]; simpl; [reflexivity |].
  destruct o; simpl; now rewrite ?IH.
Qed.

Lemma at_line_inr' {A} l o (r : res A) (tr : list event) v :
  at_line l o r = (tr, inr v) -> r = inr v /\ tr = [Ev l o].
Proof. unfold at_line, call. now intros [= <- ->]. Qed.

Lemma pop_inr (kw : gmap string pyval) k (tr : list event) v :
  pop kw k = (tr, inr v) -> tr = [].
Proof. unfold pop. destruct (kw !! k); [| discriminate]. now intros [= <- _]. Qed.

Lemma assert_inr c msg (tr : list event) u :
  assert_ c msg = (tr, inr u) -> tr = [] /\ c = true.
Proof. destruct c; [| discriminate]. now intros [= <- _]. Qed.

Lemma lift_inr {A} (r : res A) (tr : list event) v :
  lift r = (tr, inr v) -> tr = [] /\ r = inr v.
Proof. unfold lift. now intros [= <- ->]. Qed.

Lemma build_interactions_stages cfg count :
  forall i tr ms,
    build_interactions E cfg i count = (tr, inr ms) ->
    stages_built tr = map (fun j => (j, ic_extra_extractor (cfg j))) (seq i count).
Proof.
  induction count as [| count IH]; intros i tr ms Hrun; cbn [build_interactions] in Hrun.
  - now injection Hrun as <- _.
  - inv_binds Hrun. injection Hrun as <- _.
    match goal with
    | Hc : at_line _ _ _ = _, Hr : build_interactions _ _ _ _ = _ |- _ =>
        apply at_line_inr' in Hc as [_ ->]; apply IH in Hr
    end.
    rewrite !stages_built_app, app_nil_r. cbn [stages_built app seq map].
    now f_equal.
Qed.

(** X3.  A construction that returns has built one interaction stage per
    entry of [interaction_indexes], in order, and only the last of them
    with the extra extractor, and that one only when
    [use_extra_extractor] is set. *)
Theorem extra_extractor_on_last_stage_only (a : Args.t) tr (self : EvoViTAdapter) ixs :
  __init__ E a = (tr, inr self) ->
  Args.interaction_indexes a = Some ixs ->
  stages_built tr
  = map (fun i => (i, bool_decide (S i = length ixs) && Args.use_extra_extractor a))
        (seq 0 (length ixs)).
Proof.
  intros Hrun Hix. unfold __init__ in Hrun. inv_binds Hrun.
  injection Hrun as <- _. rewrite Hix in *.
  repeat match goal with
         | Hp : pop _ _ = (_, inr _) |- _ => apply pop_inr in Hp as ->
         | Hs : assert_ _ _ = (_, inr _) |- _ => apply assert_inr in Hs as [-> _]
         | Hl : lift _ = (_, inr _) |- _ =>
             apply lift_inr in Hl as [-> Hl]; injection Hl as <-
         | Hb : build_interactions _ _ _ _ = _ |- _ =>
             apply build_interactions_stages in Hb
         | Hc : at_line _ _ _ = (_, inr _) |- _ => apply at_line_inr' in Hc as [_ ->]
         end.
  rewrite !stages_built_app. cbn [stages_built app].
  match goal with Hb : stages_built _ = _ |- _ => rewrite Hb end.
  rewrite app_nil_r. apply map_ext_in. intros i Hi.
  cbn [interaction_config ic_extra_extractor]. f_equal. f_equal.
  apply in_seq in Hi.
  destruct (Z.eqb_spec (Z.of_nat i) (Z.of_nat (length ixs) - 1)).
  - rewrite bool_decide_eq_true_2; [reflexivity | lia].
  - rewrite bool_decide_eq_false_2; [reflexivity | lia].
Qed.

Lemma map_value_bind {A B C} (f : B -> C) (m : M event A) (k : A -> M event B) :
  map_value f (bind m k) = bind m (fun a => map_value f (k a)).
Proof.
  destruct m as [tr [e | a]]; cbn; [reflexivity |].
  unfold map_value. now destruct (k a) as [tr' [e | b]].
Qed.

(** X4.  [__init__] looks at [interaction_indexes] for its length only.
    Two calls whose index lists have the same length run the same
    construction and return backbones that differ in the stored list
    alone: ranges that overlap, leave gaps or reach past the last block are
    not rejected at construction. *)
Theorem init_ignores_index_contents (a : Args.t) (ixs1 ixs2 : list (list Z)) :
  length ixs1 = length ixs2 ->
  __init__ E (Args.with_indexes a (Some ixs2))
  = map_value (set_interaction_indexes (Some ixs2))
              (__init__ E (Args.with_indexes a (Some ixs1))).
Proof.
  intros Hlen. unfold __init__.
  cbn [Args.with_indexes Args.kwargs Args.num_heads Args.args Args.conv_inplane
       Args.interaction_indexes Args.pretrain_size Args.add_vit_feature len_indexes].
  rewrite Hlen.
  repeat (rewrite map_value_bind; apply bind_ext; intros ?;
          repeat match goal with
                 | |- context [match ?v with _ => _ end] => is_var v; destruct v
                 end).
  reflexivity.
Qed.

Lemma init_fields (a : Args.t) tr (self : EvoViTAdapter) :
  __init__ E a = (tr, inr self) ->
  stage_wise_prune self = PyBool false
  /\ in_channels (up self) = embed_dim (base self)
  /\ out_channels (up self) = embed_dim (base self)
  /\ kernel_size (up self) = (2, 2) /\ stride (up self) = (2, 2)
  /\ padding (up self) = (0, 0) /\ output_padding (up self) = (0, 0)
  /\ dilation (up self) = (1, 1)
  /\ shape (level_embed self) = [3; embed_dim (base self)]
  /\ 0 <= embed_dim (base self).
Proof.
  intros Hrun. unfold __init__ in Hrun. inv_binds Hrun.
  injection Hrun as _ <-.
  repeat match goal with
         | Hc : at_line _ _ _ = (_, inr _) |- _ => apply at_line_inr' in Hc as [Hc _]
         end.
  match goal with
  | Hz : zeros _ _ = inr _, Hn : inr (normal_ _ _) = inr _ |- _ =>
      injection Hn as <-; unfold zeros in Hz; cbn [existsb orb] in Hz;
      destruct (Z.ltb_spec 3 0); [lia |];
      match type of Hz with
      | context [?d <? 0] => destruct (Z.ltb_spec d 0) as [| Hdim]
      end; cbn [orb] in Hz; [discriminate |];
      injection Hz as <-
  end.
  cbn. repeat split; try reflexivity. lia.
Qed.

(** X5.  A backbone as [__init__] returns it never fails the assertion of
    line 100: its forward call gets to [deform_inputs], which is the first
    thing it calls. *)
Theorem fresh_backbone_passes_line_100 (a : Args.t) tr (self : EvoViTAdapter)
    (x : Tensor T) :
  __init__ E a = (tr, inr self) ->
  head (trace (forward E self x)) = Some (Ev 101 Call_deform_inputs).
Proof.
  intros Hrun. apply init_fields in Hrun as (Hprune & _).
  unfold forward, prepare. rewrite Hprune. cbn [is_False assert_].
  rewrite bind_ret_l, !trace_bind. reflexivity.
Qed.



End ConstructionExtras.

(** ** More on [forward] and its helpers *)

Section ForwardExtras.

Context {T Module DeformInputs : Type}.
Variable E : Collaborators T Module DeformInputs.

Local Abbreviation event := (event T Module DeformInputs).
Local Abbreviation EvoViTAdapter := (EvoViTAdapter T Module).

Ltac inv_binds H :=
  repeat (apply bind_inr in H as (? & ? & ? & ? & H & ->);
          cbv beta zeta in H;
          repeat match type of H with
                 | context [match ?v with _ => _ end] => is_var v; destruct v
                 end).

Lemma bind_at_line_inl {A B} l o e (f : A -> M event B) :
  bind (at_line l o (inl e)) f = ([Ev l o], inl e).
Proof. reflexivity. Qed.

(** A grid of no cells cannot be reshaped to. *)
Lemma infer_sizes_empty_grid n g : g <= 0 -> infer_sizes n [1; g; g; -1] = inl RuntimeError.
Proof.
  intros Hg. unfold infer_sizes. cbn [existsb].
  destruct (Z.ltb_spec g (-1)) as [Hlt | Hge].
  { destruct (1 <? -1); reflexivity. }
  assert (Hcase : g = -1 \/ g = 0) by lia.
  destruct Hcase as [-> | ->]; reflexivity.
Qed.

(** X7.  With a [pretrain_size] below 16 the pretrained grid has no cell:
    [_get_pos_embed] raises at the reshape of line 83, before any
    interpolation, whatever H and W are. *)
Theorem pos_embed_small_pretrain_size (self : EvoViTAdapter) (pe : Tensor T) (H W p : Z) :
  pretrain_size self = (p, p) ->
  p < 16 ->
  _get_pos_embed E self pe H W = ([Ev 83 Torch_reshape], inl RuntimeError).
Proof.
  intros Hp Hlt. unfold _get_pos_embed, reshape. rewrite Hp. cbn [fst snd].
  rewrite infer_sizes_empty_grid; [reflexivity |].
  apply Z.lt_succ_r. apply Z.div_lt_upper_bound; lia.
Qed.

(** X8.  [_get_pos_embed] returns only for a grid with positive height
    and width: with H or W at most 0 it raises. *)
Theorem pos_embed_needs_positive_grid (self : EvoViTAdapter) (pe : Tensor T) (H W : Z) :
  returns (_get_pos_embed E self pe H W) = true -> 0 < H /\ 0 < W.
Proof.
  unfold returns. destruct (_get_pos_embed E self pe H W) as [tr [e | r]] eqn:Hrun;
    [discriminate |].
  intros _. unfold _get_pos_embed in Hrun. inv_binds Hrun.
  match goal with
  | Hi : at_line _ (Torch_interpolate _) _ = _ |- _ =>
      apply at_line_inr in Hi as [Hi _];
      apply interpolate_to_shape in Hi as (HH & HW & _)
  end.
  split; assumption.
Qed.

(** X9.  An exception of the spatial prior module ends the forward call
    with that exception: [deform_inputs] and the module have been called,
    the patch embedding and everything after it have not. *)
Theorem spm_exception_ends_forward (self : EvoViTAdapter) (x : Tensor T) d e :
  stage_wise_prune self = PyBool false ->
  deform_inputs E x = inr d ->
  spm_forward E (spm self) x = inl e ->
  forward E self x = ([Ev 101 Call_deform_inputs; Ev 104 Call_spm], inl e).
Proof.
  intros Hprune Hd Hspm. unfold forward, prepare.
  rewrite Hprune, Hd, Hspm. destruct d. reflexivity.
Qed.

Lemma getitem_nil {A} (i : Z) : Py.getitem (@nil A) i = inl IndexError.
Proof.
  unfold Py.getitem. cbn [length]. change (Z.of_nat 0) with 0.
  destruct (Z.ltb_spec i 0).
  - destruct (Z.ltb_spec (i + 0) 0); [reflexivity | lia].
  - destruct (Z.ltb_spec i 0); [lia |].
    destruct (Z.leb_spec 0 i); [reflexivity | lia].
Qed.

(** X10.  An empty entry at the head of [interaction_indexes] ends the
    forward call with IndexError at [indexes[0]], after the preparation of
    lines 100-114 and before any stage is called. *)
Theorem empty_index_entry (self : EvoViTAdapter) (x : Tensor T) tr p m ms rest :
  prepare E self x = (tr, inr p) ->
  interactions self = m :: ms ->
  interaction_indexes self = Some ([] :: rest) ->
  forward E self x = (tr, inl IndexError).
Proof.
  intros Hprep Hint Hix. unfold forward. rewrite Hprep, Hint. cbn [bind].
  cbn [interaction_loop]. unfold indexes_at.
  rewrite Hix, (getitem_lookup ([] :: rest) 0 [] eq_refl), bind_lift_inr.
  rewrite getitem_nil. cbn. rewrite ?app_nil_r. reflexivity.
Qed.

(** X11.  A forward call that returns returns four feature maps, and the
    last four things it did are the four normalisations, [norm1] to
    [norm4] in this order. *)
Theorem forward_returns_four (self : EvoViTAdapter) (x : Tensor T) tr out :
  forward E self x = (tr, inr out) ->
  length out = 4%nat
  /\ exists tr',
       tr = tr' ++ [Ev 144 (Call_norm 1); Ev 145 (Call_norm 2);
                    Ev 146 (Call_norm 3); Ev 147 (Call_norm 4)].
Proof.
  intros Hrun. unfold forward in Hrun.
  apply bind_inr in Hrun as (tr1 & p & tr' & Hp & Hrun & ->). cbv beta zeta in Hrun.
  apply bind_inr in Hrun as (tr2 & [[[ct xt] c] ca] & tr'' & Hloop & Hrun & ->).
  apply bind_inr in Hrun as (tr3 & [[[c1 c2] c3] c4] & tr4 & Hre & Hrun & ->).
  apply bind_inr in Hrun as (tr5 & [[[c1' c2'] c3'] c4'] & tr6 & Hadd & Hrun & ->).
  unfold final_norm in Hrun. inv_binds Hrun. injection Hrun as <- <-.
  repeat match goal with
         | Hc : at_line _ _ _ = (_, inr _) |- _ => apply at_line_inr in Hc as [_ ->]
         end.
  split; [reflexivity |].
  exists (tr1 ++ tr2 ++ tr3 ++ tr5). now rewrite <- !app_assoc.
Qed.

Lemma interaction_loop_stage_args (self : EvoViTAdapter) (p : Prepared T DeformInputs)
    layers :
  forall i st,
    Forall (fun ia => indexes_at self (fst ia) = inr (la_indexes (snd ia))
                      /\ stage_args_of self p (snd ia))
      (layer_calls
         (trace (interaction_loop E self (p_deform_inputs1 p) (p_deform_inputs2 p)
                   (p_H p) (p_W p) i layers st))).
Proof.
  induction layers as [| m layers IH]; intros i [[[ct x] c] ca];
    cbn [interaction_loop]; [constructor |].
  destruct (indexes_at self i) as [e | ix] eqn:Hix; [constructor |].
  rewrite bind_lift_inr.
  destruct (Py.getitem ix 0) as [e | lo] eqn:Hlo; [constructor |].
  rewrite bind_lift_inr.
  destruct (Py.getitem ix (-1)) as [e | hi] eqn:Hhi; [constructor |].
  rewrite bind_lift_inr.
  match goal with
  | |- context [layer_forward E m ?a] => set (args := a)
  end.
  rewrite trace_bind, layer_calls_app.
  cbn [at_line call trace outcome fst snd layer_calls what app].
  constructor.
  - cbn [fst snd]. split; [exact Hix |].
    exists lo, hi. repeat split; assumption.
  - destruct (layer_forward E m args) as [e | st']; [constructor | apply IH].
Qed.

(** X12.  Every stage a forward call calls is called with the entry of
    [interaction_indexes] at its position and with the five per-block
    module lists ([blocks], [norms], [vs], [qks], [projs]) cut with the
    same two bounds, [indexes[0]] and [indexes[-1] + 1]; all stages get
    the grid size, the deform inputs and the pruning settings of the
    call. *)
Theorem stages_get_matching_slices (self : EvoViTAdapter) (x : Tensor T) tr p :
  prepare E self x = (tr, inr p) ->
  Forall (fun ia => indexes_at self (fst ia) = inr (la_indexes (snd ia))
                    /\ stage_args_of self p (snd ia))
         (layer_calls (trace (forward E self x))).
Proof.
  intros Hprep. rewrite forward_layer_calls, Hprep. cbn [outcome snd].
  apply interaction_loop_stage_args.
Qed.

(** Adding a vector of [dim] entries to a batch of sequences of dimension
    [dim]: the vector is added to every token. *)
Lemma add_vector (sa : T -> T -> T) (c e : Tensor T) bs n dim :
  shape c = [bs; n; dim] -> shape e = [dim] ->
  exists r,
    add sa c e = inr r
    /\ shape r = [bs; n; dim]
    /\ forall i j k, in_range [bs; n; dim] [i; j; k] ->
                     at_ r [i; j; k] = sa (at_ c [i; j; k]) (at_ e [k]).
Proof.
  intros Hc He. unfold add, broadcast_shape. rewrite Hc, He.
  cbn [rev app broadcast_rev]. rewrite Z.eqb_refl. cbn [res_bind rev app].
  eexists. split; [reflexivity |]. split; [reflexivity |].
  intros i j k (Hi & Hj & Hk & _). cbn [at_ shape].
  unfold bidx. cbn [length Nat.sub drop zip_with].
  assert (Hbs : (if bs =? 1 then 0 else i) = i)
    by (destruct (Z.eqb_spec bs 1); lia).
  assert (Hn : (if n =? 1 then 0 else j) = j)
    by (destruct (Z.eqb_spec n 1); lia).
  assert (Hd : (if dim =? 1 then 0 else k) = k)
    by (destruct (Z.eqb_spec dim 1); lia).
  now rewrite Hbs, Hn, Hd.
Qed.

Lemma select0_row (t : Tensor T) d s (k : Z) :
  shape t = d :: s -> 0 <= k < d ->
  select0 t k = inr (mkTensor s (fun idx => at_ t (k :: idx))).
Proof.
  intros Hs Hk. unfold select0. rewrite Hs.
  destruct (Z.ltb_spec k 0); [lia |]. destruct (Z.ltb_spec k 0); [lia |].
  destruct (Z.leb_spec d k); [lia |]. reflexivity.
Qed.

(** X13.  [_add_level_embed] adds row 0 of the level embedding to every
    token of [c2], row 1 to every token of [c3] and row 2 to every token of
    [c4], channel by channel, and keeps the three shapes. *)
Theorem level_embed_added_per_level (self : EvoViTAdapter) (c2 c3 c4 : Tensor T)
    (bs n2 n3 n4 dim : Z) :
  shape (level_embed self) = [3; dim] ->
  shape c2 = [bs; n2; dim] -> shape c3 = [bs; n3; dim] -> shape c4 = [bs; n4; dim] ->
  exists tr c2' c3' c4',
    _add_level_embed E self c2 c3 c4 = (tr, inr (c2', c3', c4'))
    /\ shape c2' = shape c2 /\ shape c3' = shape c3 /\ shape c4' = shape c4
    /\ (forall i j k, in_range (shape c2) [i; j; k] ->
          at_ c2' [i; j; k]
          = scalar_add E (at_ c2 [i; j; k]) (at_ (level_embed self) [0; k]))
    /\ (forall i j k, in_range (shape c3) [i; j; k] ->
          at_ c3' [i; j; k]
          = scalar_add E (at_ c3 [i; j; k]) (at_ (level_embed self) [1; k]))
    /\ (forall i j k, in_range (shape c4) [i; j; k] ->
          at_ c4' [i; j; k]
          = scalar_add E (at_ c4 [i; j; k]) (at_ (level_embed self) [2; k])).
Proof.
  intros Hle H2 H3 H4. unfold _add_level_embed.
  rewrite !(select0_row (level_embed self) 3 [dim]) by (assumption || lia).
  destruct (add_vector (scalar_add E) c2
              (mkTensor [dim] (fun idx => at_ (level_embed self) (0 :: idx)))
              _ _ _ H2 eq_refl) as (r2 & Ha2 & Hs2 & Hv2).
  destruct (add_vector (scalar_add E) c3
              (mkTensor [dim] (fun idx => at_ (level_embed self) (1 :: idx)))
              _ _ _ H3 eq_refl) as (r3 & Ha3 & Hs3 & Hv3).
  destruct (add_vector (scalar_add E) c4
              (mkTensor [dim] (fun idx => at_ (level_embed self) (2 :: idx)))
              _ _ _ H4 eq_refl) as (r4 & Ha4 & Hs4 & Hv4).
  rewrite bind_at_line, Ha2, bind_at_line, bind_at_line, Ha3, bind_at_line,
    bind_at_line, Ha4, bind_at_line.
  eexists _, r2, r3, r4. split; [reflexivity |].
  rewrite H2, H3, H4. repeat split; assumption.
Qed.

(** *** Shapes that always fit *)

Lemma sizes_without_minus_one sizes :
  Forall (fun z => 0 <= z) sizes ->
  filter (fun z : Z => z <> -1) sizes = sizes
  /\ existsb (fun z => z <? -1) sizes = false.
Proof.
  induction 1 as [| z sizes Hz _ [IHf IHe]]; [split; reflexivity |].
  rewrite filter_cons. cbn [existsb].
  case_decide; [| lia]. rewrite IHf, IHe.
  destruct (Z.ltb_spec z (-1)); [lia |]. split; reflexivity.
Qed.

(** Sizes without a -1 are taken as they are when they hold as many
    elements as the tensor. *)
Lemma infer_sizes_exact n sizes :
  Forall (fun z => 0 <= z) sizes -> numel sizes = n ->
  infer_sizes n sizes = inr sizes.
Proof.
  intros Hpos Hn. unfold infer_sizes.
  destruct (sizes_without_minus_one sizes Hpos) as [-> ->].
  rewrite Nat.sub_diag, Hn, Z.eqb_refl. reflexivity.
Qed.



(** [t.transpose(1, 2).view(bs, dim, h, w).contiguous()] on a batch of
    [h * w] tokens. *)
Lemma to_spatial_returns ln (t : Tensor T) bs dim h w n :
  shape t = [bs; n; dim] -> n = h * w ->
  0 <= bs -> 0 <= dim -> 0 <= h -> 0 <= w ->
  exists r,
    to_spatial (Module := Module) (DeformInputs := DeformInputs) ln t bs dim h w
    = ([Ev ln Torch_transpose; Ev ln Torch_view; Ev ln Torch_contiguous], inr r)
    /\ shape r = [bs; dim; h; w].
Proof.
  intros Hs -> Hbs Hdim Hh Hw. unfold to_spatial, transpose, rank. rewrite Hs.
  cbn [length Nat.ltb Nat.leb andb]. rewrite bind_at_line.
  unfold view, reshape. cbn [shape]. unfold swap. cbn [nth].
  change (<[1%nat:=dim]> (<[2%nat:=h * w]> [bs; h * w; dim])) with [bs; dim; h * w].
  rewrite (infer_sizes_exact _ [bs; dim; h; w]).
  - cbn [res_bind]. rewrite bind_at_line. eexists. split; reflexivity.
  - repeat constructor; assumption.
  - cbn [numel]. lia.
Qed.

Lemma bind_returns {A B} (m : M event A) (f : A -> M event B) tr a :
  m = (tr, inr a) -> bind m f = (tr ++ trace (f a), outcome (f a)).
Proof. intros ->. cbn. now destruct (f a). Qed.

(** [c[:, a:b, :]] with an upper bound that may reach past the end. *)
Lemma slice1_clamped (c : Tensor T) bs n dim a b :
  shape c = [bs; n; dim] -> 0 <= a -> a <= n -> a <= b ->
  slice1 3 c (Some a) (Some b)
  = inr (mkTensor [bs; Z.min b n - a; dim]
           (fun idx => match idx with
                       | i :: j :: idx' => at_ c (i :: j + a :: idx')
                       | _ => at_ c idx
                       end)).
Proof.
  intros Hs Ha Han Hab. unfold slice1, rank. rewrite Hs.
  cbn [length Nat.ltb Nat.leb]. unfold Py.clamp, default, from_option, id.
  destruct (Z.ltb_spec a 0); [lia |]. destruct (Z.ltb_spec b 0); [lia |].
  rewrite (Z.min_l a n), (Z.max_r 0 (Z.min b n - a)) by lia.
  reflexivity.
Qed.

Lemma split_levels_clamped (c c2 c3 : Tensor T) (bs N dim n2 n3 : Z) :
  shape c = [bs; N; dim] -> size c2 1 = inr n2 -> size c3 1 = inr n3 ->
  0 <= N -> 0 <= n2 -> 0 <= n3 ->
  exists tr s2 s3 s4 c',
    split_levels (Module := Module) (DeformInputs := DeformInputs) c c2 c3
    = (tr, inr (s2, s3, s4))
    /\ shape s2 = [bs; Z.min n2 N; dim]
    /\ shape s3 = [bs; Z.min n3 (N - Z.min n2 N); dim]
    /\ shape s4 = [bs; N - Z.min n2 N - Z.min n3 (N - Z.min n2 N); dim]
    /\ cat1 [s2; s3; s4] = inr c' /\ teq c' c.
Proof.
  intros Hc H2 H3 HN Hn2 Hn3.
  pose proof (slice1_clamped c _ _ _ 0 n2 Hc) as Hs2.
  set (m2 := Z.min n2 N - 0) in *.
  pose proof (slice1_clamped c _ _ _ m2 (m2 + n3) Hc) as Hs3.
  set (m3 := Z.min (m2 + n3) N - m2) in *.
  pose proof (slice1_from c _ _ _ (m2 + m3) Hc) as Hs4.
  set (s2 := mkTensor [bs; m2; dim] _) in Hs2.
  set (s3 := mkTensor [bs; m3; dim] _) in Hs3.
  set (s4 := mkTensor _ _) in Hs4.
  assert (Hrun : exists tr,
             split_levels (Module := Module) (DeformInputs := DeformInputs) c c2 c3
             = (tr, inr (s2, s3, s4))).
  { unfold split_levels.
    rewrite H2, bind_lift_inr. cbv beta.
    rewrite Hs2, bind_at_line by lia.
    change (size s2 1) with (inr m2 : res Z).
    rewrite !bind_lift_inr, H3, bind_lift_inr.
    rewrite Hs3, bind_at_line by lia.
    change (size s3 1) with (inr m3 : res Z).
    rewrite !bind_lift_inr.
    rewrite Hs4, bind_at_line by lia.
    eexists. reflexivity. }
  destruct Hrun as [tr Hrun].
  pose proof (cat1_three s2 s3 s4 _ _ _ _ _ eq_refl eq_refl eq_refl) as Hcat'.
  match type of Hcat' with _ = inr ?t => set (c' := t) in * end.
  exists tr, s2, s3, s4, c'.
  split; [exact Hrun |].
  split; [cbn; f_equal; f_equal; lia |].
  split; [cbn; f_equal; f_equal; lia |].
  split; [cbn; f_equal; f_equal; lia |].
  split; [exact Hcat' |].
  split.
  - cbn. rewrite Hc. f_equal. f_equal. lia.
  - intros idx Hidx. apply in_range3 in Hidx as (i & j & k & -> & Hi & Hj & Hk).
    cbn. unfold dim1. cbn.
    destruct (Z.ltb_spec j m2).
    + replace (j + 0) with j by lia. reflexivity.
    + destruct (Z.ltb_spec (j - m2) m3).
      * replace (j - m2 + m2) with j by lia. reflexivity.
      * replace (j - m2 - m3 + (m2 + m3)) with j by lia. reflexivity.
Qed.

(** X14.  Lines 127-129 cut any conv sequence into three slices without
    raising, also when it has fewer tokens than [c2] and [c3] together:
    the bounds are clamped to its length.  The slices have
    min(n2, N), min(n3, N - min(n2, N)) and the remaining tokens, which add
    up to N, and concatenating them gives the sequence back, element for
    element. *)
Theorem split_levels_never_loses_tokens (c c2 c3 : Tensor T) (bs N dim n2 n3 : Z) :
  shape c = [bs; N; dim] -> size c2 1 = inr n2 -> size c3 1 = inr n3 ->
  0 <= N -> 0 <= n2 -> 0 <= n3 ->
  exists tr s2 s3 s4 c',
    split_levels (Module := Module) (DeformInputs := DeformInputs) c c2 c3
    = (tr, inr (s2, s3, s4))
    /\ shape s2 = [bs; Z.min n2 N; dim]
    /\ shape s3 = [bs; Z.min n3 (N - Z.min n2 N); dim]
    /\ shape s4 = [bs; N - Z.min n2 N - Z.min n3 (N - Z.min n2 N); dim]
    /\ cat1 [s2; s3; s4] = inr c' /\ teq c' c.
Proof. apply split_levels_clamped. Qed.


(** *** Resampling by a scale factor *)

Lemma Qfloor_times (h k : Z) : Qfloor (inject_Z h * inject_Z k) = h * k.
Proof. unfold Qfloor, Qmult, inject_Z. cbn [Qnum Qden Pos.mul]. apply Z.div_1_r. Qed.

Lemma Qfloor_half (h : Z) : Qfloor (inject_Z h * (1 # 2)) = h / 2.
Proof.
  unfold Qfloor, Qmult, inject_Z. cbn [Qnum Qden Pos.mul]. now rewrite Z.mul_1_r.
Qed.

Lemma interpolate_times iv mode (t : Tensor T) n c h w k :
  shape t = [n; c; h; w] -> 0 < c -> 0 < h -> 0 < w -> 0 < k ->
  exists r, interpolate_scale iv mode t (inject_Z k) = inr r
            /\ shape r = [n; c; h * k; w * k].
Proof.
  intros Hs Hc Hh Hw Hk. unfold interpolate_scale. rewrite Hs, !Qfloor_times.
  apply (interpolate_to_returns iv mode t n c h w); try assumption; nia.
Qed.



(** X17.  With [add_vit_feature] on and a grid one token high, the
    resampling by one half of line 140 has no row to produce and raises:
    lines 137-139 have run, no level has been added to. *)
Theorem add_vit_features_grid_of_height_one (self : EvoViTAdapter)
    (x c1 c2 c3 c4 : Tensor T) (bs dim W : Z) :
  add_vit_feature self = true ->
  shape x = [bs; 1 * W; dim] ->
  0 <= bs -> 0 < dim -> 0 < W ->
  add_vit_features E self x c1 c2 c3 c4 bs dim 1 W
  = ([Ev 137 Torch_transpose; Ev 137 Torch_view; Ev 137 Torch_contiguous;
      Ev 138 (Torch_interpolate Bilinear); Ev 139 (Torch_interpolate Bilinear);
      Ev 140 (Torch_interpolate Bilinear)], inl RuntimeError).
Proof.
  intros Hon Hx Hbs Hdim HW.
  destruct (to_spatial_returns 137 x bs dim 1 W _ Hx eq_refl) as (x3 & Ht & Hs3);
    try lia.
  destruct (interpolate_times (interp_values E) Bilinear x3 _ _ _ _ 4 Hs3)
    as (x1 & Hi1 & Hsx1); try lia.
  destruct (interpolate_times (interp_values E) Bilinear x3 _ _ _ _ 2 Hs3)
    as (x2 & Hi2 & Hsx2); try lia.
  assert (Hi4 : interpolate_scale (interp_values E) Bilinear x3 (1 # 2)
                = inl RuntimeError).
  { unfold interpolate_scale. rewrite Hs3, !Qfloor_half.
    unfold interpolate_to. rewrite Hs3.
    change (0 <? 1 / 2) with false. now rewrite andb_false_r. }
  unfold add_vit_features. rewrite Hon.
  rewrite (bind_returns _ _ _ _ Ht). cbv beta.
  change 4%Q with (inject_Z 4). change 2%Q with (inject_Z 2).
  rewrite Hi1, bind_at_line, Hi2, bind_at_line, Hi4. reflexivity.
Qed.

End ForwardExtras.

(** ** Weight initialisation *)

Section InitFacts.

Context {T P : Type}.
Variable zero one : T.
Variable trunc_normal_values : Tensor T -> list Z -> T.
Variable normal_values : Z -> Tensor T -> list Z -> T.
Variable reset_parameters : Init.module (T := T) (P := P) -> Init.module (T := T) (P := P).

Local Abbreviation module := (Init.module (T := T) (P := P)).
Local Abbreviation init_weights :=
  (Init._init_weights zero one trunc_normal_values normal_values).
Local Abbreviation init_deform_weights := (Init._init_deform_weights reset_parameters).

Lemma module_tree_ind (Q : module -> Prop) :
  (forall k cs, Forall Q cs -> Q (Init.Node k cs)) -> forall m, Q m.
Proof.
  intros Hnode. fix IH 1. intros [k cs]. apply Hnode.
  induction cs as [| c cs IHcs]; constructor; [apply IH | exact IHcs].
Qed.

Lemma apply_node fn k (cs : list module) :
  Init.apply fn (Init.Node k cs)
  = match Init.apply_each fn cs with
    | inl e => inl e
    | inr cs' => fn (Init.Node k cs')
    end.
Proof. reflexivity. Qed.

Lemma apply_each_cons fn (c : module) cs :
  Init.apply_each fn (c :: cs)
  = match Init.apply fn c with
    | inl e => inl e
    | inr c' => match Init.apply_each fn cs with
                | inl e => inl e
                | inr cs' => inr (c' :: cs')
                end
    end.
Proof. reflexivity. Qed.



(** X19.  On a convolution whose kernel sizes times output channels is
    less than its number of groups -- one without output channels, for
    one -- the fan-out is 0 and [_init_weights] raises ZeroDivisionError
    at [2.0 / fan_out]. *)
Theorem init_weights_zero_fan_out (k0 k1 oc g : Z) (w : Tensor T)
    (b : option (Tensor T)) (cs : list module) :
  0 <= k0 * k1 * oc < g ->
  init_weights (Init.Node (Init.Conv2d (k0, k1) oc g w b) cs)
  = inl Init.ZeroDivisionError
  /\ init_weights (Init.Node (Init.ConvTranspose2d (k0, k1) oc g w b) cs)
     = inl Init.ZeroDivisionError.
Proof.
  intros Hsmall.
  unfold Init._init_weights, Init.init_layer, Init.init_conv, Init.fan_out.
  cbn [fst snd].
  destruct (Z.eqb_spec g 0); [lia |].
  rewrite (Z.div_small _ _ Hsmall). split; reflexivity.
Qed.

Lemma shapes_node k (cs : list module) :
  Init.shapes (Init.Node k cs) = Init.layer_shapes k ++ concat (map Init.shapes cs).
Proof.
  cbn [Init.shapes]. f_equal.
  induction cs as [| c cs IH]; [reflexivity |]. cbn [map concat]. now rewrite <- IH.
Qed.

Lemma count_node k (cs : list module) :
  Init.count (Init.Node k cs) = S (list_sum (map Init.count cs)).
Proof.
  cbn [Init.count]. f_equal.
  induction cs as [| c cs IH]; [reflexivity |].
  change (list_sum (map Init.count (c :: cs)))
    with (Init.count c + list_sum (map Init.count cs))%nat.
  now rewrite <- IH.
Qed.

Lemma has_deform_node k (cs : list module) :
  Init.has_deform (Init.Node k cs)
  = (match k with Init.MSDeformAttn _ => true | _ => false end)
    || existsb Init.has_deform cs.
Proof.
  reflexivity.
Qed.

Lemma init_layer_keeps (k k' : Init.layer (T := T) (P := P)) :
  Init.init_layer zero one trunc_normal_values normal_values k = inr k' ->
  Init.layer_shapes k' = Init.layer_shapes k
  /\ (match k' with Init.MSDeformAttn _ => true | _ => false end)
     = (match k with Init.MSDeformAttn _ => true | _ => false end).
Proof.
  destruct k as [w b | w b | w b | ks oc g w b | ks oc g w b | p | name];
    cbn [Init.init_layer].
  - intros [= <-]. destruct b; split; reflexivity.
  - destruct b as [b |]; cbn [Init.constant_]; [| discriminate].
    destruct w as [w |]; [| discriminate]. intros [= <-]. split; reflexivity.
  - destruct b as [b |]; cbn [Init.constant_]; [| discriminate].
    destruct w as [w |]; [| discriminate]. intros [= <-]. split; reflexivity.
  - unfold Init.init_conv. destruct (Init.fan_out ks oc g) as [e | f]; [discriminate |].
    destruct (f =? 0); [discriminate |]. destruct (f <? 0); [discriminate |].
    intros [= <-]. destruct b; split; reflexivity.
  - unfold Init.init_conv. destruct (Init.fan_out ks oc g) as [e | f]; [discriminate |].
    destruct (f =? 0); [discriminate |]. destruct (f <? 0); [discriminate |].
    intros [= <-]. destruct b; split; reflexivity.
  - intros [= <-]. split; reflexivity.
  - intros [= <-]. split; reflexivity.
Qed.

Lemma apply_init_weights_keeps (m : module) :
  forall m',
    Init.apply init_weights m = inr m' ->
    Init.shapes m' = Init.shapes m
    /\ Init.count m' = Init.count m
    /\ Init.has_deform m' = Init.has_deform m.
Proof.
  induction m as [k cs IH] using module_tree_ind. intros m' Hrun.
  rewrite apply_node in Hrun.
  destruct (Init.apply_each init_weights cs) as [e | cs'] eqn:Hcs; [discriminate |].
  assert (Hall : map Init.shapes cs' = map Init.shapes cs
                 /\ map Init.count cs' = map Init.count cs
                 /\ map Init.has_deform cs' = map Init.has_deform cs).
  { clear Hrun. revert cs' Hcs.
    induction IH as [| c cs Hc _ IHcs]; intros cs' Hcs.
    - injection Hcs as <-. repeat split.
    - rewrite apply_each_cons in Hcs.
      destruct (Init.apply init_weights c) as [e | c'] eqn:Hc'; [discriminate |].
      destruct (Init.apply_each init_weights cs) as [e | cs''] eqn:Hcs'';
        [discriminate |].
      injection Hcs as <-.
      destruct (Hc c' eq_refl) as (H1 & H2 & H3).
      destruct (IHcs cs'' eq_refl) as (H4 & H5 & H6).
      cbn [map]. now rewrite H1, H2, H3, H4, H5, H6. }
  destruct Hall as (Hs & Hn & Hd).
  unfold Init._init_weights in Hrun.
  destruct (Init.init_layer zero one trunc_normal_values normal_values k)
    as [e | k'] eqn:Hk; [discriminate |].
  injection Hrun as <-.
  apply init_layer_keeps in Hk as [Hks Hkd].
  rewrite !shapes_node, !count_node, !has_deform_node, Hks, Hkd, Hs, Hn.
  repeat split.
  f_equal. clear -Hd. revert cs' Hd.
  induction cs as [| c cs IHcs]; intros [| c' cs'] Hd; try discriminate;
    [reflexivity |].
  injection Hd as Hc Hrest. cbn [existsb]. now rewrite Hc, (IHcs cs' Hrest).
Qed.

(** X20.  [m.apply(self._init_weights)], when it returns, has changed
    values only: the module tree has as many modules as before, every
    parameter has kept its shape, a missing bias is still missing, and
    the deformable-attention modules are where they were. *)
Theorem apply_init_weights_keeps_structure (m m' : module) :
  Init.apply init_weights m = inr m' ->
  Init.shapes m' = Init.shapes m
  /\ Init.count m' = Init.count m
  /\ Init.has_deform m' = Init.has_deform m.
Proof. apply apply_init_weights_keeps. Qed.

Lemma apply_init_deform_without_deform (m : module) :
  Init.has_deform m = false -> Init.apply init_deform_weights m = inr m.
Proof.
  induction m as [k cs IH] using module_tree_ind. intros Hno.
  rewrite has_deform_node in Hno. apply orb_false_iff in Hno as [Hk Hcs].
  rewrite apply_node.
  assert (Heach : Init.apply_each init_deform_weights cs = inr cs).
  { clear Hk. induction IH as [| c cs Hc _ IHcs]; [reflexivity |].
    cbn [existsb] in Hcs. apply orb_false_iff in Hcs as [Hc' Hcs'].
    rewrite apply_each_cons, (Hc Hc'), (IHcs Hcs'). reflexivity. }
  rewrite Heach. destruct k; try reflexivity. discriminate.
Qed.

(** X21.  [self.apply(self._init_deform_weights)] changes nothing in a
    module tree without a deformable-attention module: it returns the tree
    as it was. *)
Theorem init_deform_weights_only_touches_deform (m : module) :
  Init.has_deform m = false -> Init.apply init_deform_weights m = inr m.
Proof. apply apply_init_deform_without_deform. Qed.

(** X22.  On a module tree without deformable attention, such as
    [self.up], the reset of line 64 keeps what [_init_weights] of lines
    61-63 has written: applying the second callback to the result of the
    first returns that result. *)
Theorem init_deform_weights_keeps_init_weights (m m' : module) :
  Init.has_deform m = false ->
  Init.apply init_weights m = inr m' ->
  Init.apply init_deform_weights m' = inr m'.
Proof.
  intros Hno Hrun. apply apply_init_deform_without_deform.
  apply apply_init_weights_keeps in Hrun as (_ & _ & Hd). now rewrite Hd.
Qed.

End InitFacts.

(** ** Sample runs *)

Lemma base_class_kwargs_witness :
  exists kw,
    __init__ Toy.E Toy.args = build Toy.E Toy.args kw
    /\ (forall k, k ∈ popped_keys -> kw !! k = None)
    /\ (forall k, k ∉ popped_keys -> kw !! k = Args.kwargs Toy.args !! k).
Proof.
  apply (base_class_kwargs Toy.E Toy.args).
  vm_compute. reflexivity.
Defined.

Lemma init_without_indexes_witness :
  __init__ Toy.E Sample.args_no_indexes
  = ([Ev 29 New_base; Ev 44 New_parameter; Ev 45 New_spm], inl TypeError).
Proof.
  apply (init_without_indexes Toy.E Sample.args_no_indexes (base Toy.model) 600%nat).
  - vm_compute. reflexivity.
  - reflexivity.
  - reflexivity.
  - change (0 <= 4). lia.
  - reflexivity.
Defined.

Lemma extra_extractor_on_last_stage_only_witness :
  stages_built (trace (__init__ Toy.E Toy.args))
  = map (fun i => (i, bool_decide (S i = length [[0; 2]; [3; 5]; [6; 8]; [9; 11]])
                      && Args.use_extra_extractor Toy.args))
        (seq 0 (length [[0; 2]; [3; 5]; [6; 8]; [9; 11]])).
Proof.
  apply (extra_extractor_on_last_stage_only Toy.E Toy.args
           (trace (__init__ Toy.E Toy.args)) Toy.model).
  - vm_compute. reflexivity.
  - reflexivity.
Defined.

Lemma init_ignores_index_contents_witness :
  __init__ Toy.E (Args.with_indexes Toy.args (Some Sample.odd_indexes))
  = map_value (set_interaction_indexes (Some Sample.odd_indexes))
              (__init__ Toy.E (Args.with_indexes Toy.args
                                 (Some [[0; 2]; [3; 5]; [6; 8]; [9; 11]]))).
Proof.
  apply (init_ignores_index_contents Toy.E Toy.args
           [[0; 2]; [3; 5]; [6; 8]; [9; 11]] Sample.odd_indexes).
  reflexivity.
Defined.

Lemma fresh_backbone_passes_line_100_witness :
  head (trace (forward Toy.E Toy.model Toy.image)) = Some (Ev 101 Call_deform_inputs).
Proof.
  apply (fresh_backbone_passes_line_100 Toy.E Toy.args
           (trace (__init__ Toy.E Toy.args)) Toy.model Toy.image).
  vm_compute. reflexivity.
Defined.


Lemma pos_embed_small_pretrain_size_witness :
  _get_pos_embed Toy.E Sample.model_small (Toy.iota [1; 196; 4]) 20 20
  = ([Ev 83 Torch_reshape], inl RuntimeError).
Proof.
  apply (pos_embed_small_pretrain_size Toy.E Sample.model_small
           (Toy.iota [1; 196; 4]) 20 20 8).
  - vm_compute. reflexivity.
  - lia.
Defined.

Lemma pos_embed_needs_positive_grid_witness :
  returns (_get_pos_embed Toy.E Toy.model (Toy.iota [1; 196; 4]) 20 20) = true
  /\ 0 < 20 /\ 0 < 20.
Proof.
  split.
  - vm_compute. reflexivity.
  - apply (pos_embed_needs_positive_grid Toy.E Toy.model (Toy.iota [1; 196; 4]) 20 20).
    vm_compute. reflexivity.
Defined.

Lemma spm_exception_ends_forward_witness :
  forward Sample.E_spm_raises Toy.model Toy.image
  = ([Ev 101 Call_deform_inputs; Ev 104 Call_spm], inl (CollaboratorError "spm")).
Proof.
  apply (spm_exception_ends_forward Sample.E_spm_raises Toy.model Toy.image
           (tt, tt) (CollaboratorError "spm")).
  - reflexivity.
  - reflexivity.
  - reflexivity.
Defined.

Lemma empty_index_entry_witness :
  forward Toy.E Sample.model_empty_entry Toy.image
  = (trace (prepare Toy.E Sample.model_empty_entry Toy.image), inl IndexError).
Proof.
  apply (empty_index_entry Toy.E Sample.model_empty_entry Toy.image
           (trace (prepare Toy.E Sample.model_empty_entry Toy.image))
           Sample.prepared_empty_entry 700%nat [700; 700; 701]%nat [[3; 5]]).
  - apply returns_value. vm_compute. reflexivity.
  - reflexivity.
  - reflexivity.
Defined.

Lemma forward_returns_four_witness :
  length Toy.features = 4%nat
  /\ exists tr',
       trace (forward Toy.E Toy.model Toy.image)
       = tr' ++ [Ev 144 (Call_norm 1); Ev 145 (Call_norm 2);
                 Ev 146 (Call_norm 3); Ev 147 (Call_norm 4)].
Proof.
  apply (forward_returns_four Toy.E Toy.model Toy.image
           (trace (forward Toy.E Toy.model Toy.image)) Toy.features).
  apply returns_value. vm_compute. reflexivity.
Defined.

Lemma stages_get_matching_slices_witness :
  Forall (fun ia => indexes_at Toy.model (fst ia) = inr (la_indexes (snd ia))
                    /\ stage_args_of Toy.model Sample.prepared (snd ia))
         (layer_calls (trace (forward Toy.E Toy.model Toy.image))).
Proof.
  apply (stages_get_matching_slices Toy.E Toy.model Toy.image
           (trace (prepare Toy.E Toy.model Toy.image)) Sample.prepared).
  apply returns_value. vm_compute. reflexivity.
Defined.

Lemma level_embed_added_per_level_witness :
  exists tr c2' c3' c4',
    _add_level_embed Toy.E Toy.model Sample.level8 Sample.level16 Sample.level32
    = (tr, inr (c2', c3', c4'))
    /\ shape c2' = shape Sample.level8 /\ shape c3' = shape Sample.level16
    /\ shape c4' = shape Sample.level32
    /\ (forall i j k, in_range (shape Sample.level8) [i; j; k] ->
          at_ c2' [i; j; k]
          = scalar_add Toy.E (at_ Sample.level8 [i; j; k])
                       (at_ (level_embed Toy.model) [0; k]))
    /\ (forall i j k, in_range (shape Sample.level16) [i; j; k] ->
          at_ c3' [i; j; k]
          = scalar_add Toy.E (at_ Sample.level16 [i; j; k])
                       (at_ (level_embed Toy.model) [1; k]))
    /\ (forall i j k, in_range (shape Sample.level32) [i; j; k] ->
          at_ c4' [i; j; k]
          = scalar_add Toy.E (at_ Sample.level32 [i; j; k])
                       (at_ (level_embed Toy.model) [2; k])).
Proof.
  apply (level_embed_added_per_level Toy.E Toy.model
           Sample.level8 Sample.level16 Sample.level32 1 16 4 1 4).
  - reflexivity.
  - reflexivity.
  - reflexivity.
  - reflexivity.
Defined.

Lemma split_levels_never_loses_tokens_witness :
  exists tr s2 s3 s4 c',
    split_levels (Module := nat) (DeformInputs := unit)
      Sample.short_sequence Toy.seq4 Toy.seq2
    = (tr, inr (s2, s3, s4))
    /\ shape s2 = [1; Z.min 4 3; 2]
    /\ shape s3 = [1; Z.min 2 (3 - Z.min 4 3); 2]
    /\ shape s4 = [1; 3 - Z.min 4 3 - Z.min 2 (3 - Z.min 4 3); 2]
    /\ cat1 [s2; s3; s4] = inr c' /\ teq c' Sample.short_sequence.
Proof.
  apply (split_levels_never_loses_tokens (Module := nat) (DeformInputs := unit)
           Sample.short_sequence Toy.seq4 Toy.seq2 1 3 2 4 2).
  - reflexivity.
  - reflexivity.
  - reflexivity.
  - lia.
  - lia.
  - lia.
Defined.



Lemma add_vit_features_grid_of_height_one_witness :
  add_vit_features Toy.E Toy.model Sample.row_tokens Sample.map4 Sample.map8
    Sample.map16 Sample.map32 1 4 1 3
  = ([Ev 137 Torch_transpose; Ev 137 Torch_view; Ev 137 Torch_contiguous;
      Ev 138 (Torch_interpolate Bilinear); Ev 139 (Torch_interpolate Bilinear);
      Ev 140 (Torch_interpolate Bilinear)], inl RuntimeError).
Proof.
  apply (add_vit_features_grid_of_height_one Toy.E Toy.model Sample.row_tokens
           Sample.map4 Sample.map8 Sample.map16 Sample.map32 1 4 3).
  - reflexivity.
  - reflexivity.
  - lia.
  - lia.
  - lia.
Defined.


Lemma init_weights_zero_fan_out_witness :
  Sample.init_weights
    (Init.Node (Init.Conv2d (2, 2) 0 1 (Toy.iota [0; 4; 2; 2]) None) [])
  = inl Init.ZeroDivisionError
  /\ Sample.init_weights
       (Init.Node (Init.ConvTranspose2d (2, 2) 0 1 (Toy.iota [0; 4; 2; 2]) None) [])
     = inl Init.ZeroDivisionError.
Proof.
  apply (init_weights_zero_fan_out (P := unit) 0 1 (fun _ _ => 7) (fun f _ _ => f)
           2 2 0 1 (Toy.iota [0; 4; 2; 2]) None []).
  lia.
Defined.

Lemma apply_init_weights_keeps_structure_witness :
  Init.shapes Sample.up_tree_initialised = Init.shapes Sample.up_tree
  /\ Init.count Sample.up_tree_initialised = Init.count Sample.up_tree
  /\ Init.has_deform Sample.up_tree_initialised = Init.has_deform Sample.up_tree.
Proof.
  apply (apply_init_weights_keeps_structure 0 1 (fun _ _ => 7) (fun f _ _ => f)
           Sample.up_tree Sample.up_tree_initialised).
  reflexivity.
Defined.

Lemma init_deform_weights_only_touches_deform_witness :
  Init.apply Sample.init_deform_weights Sample.up_tree = inr Sample.up_tree.
Proof.
  apply (init_deform_weights_only_touches_deform (fun m => m) Sample.up_tree).
  reflexivity.
Defined.

Lemma init_deform_weights_keeps_init_weights_witness :
  Init.apply Sample.init_deform_weights Sample.up_tree_initialised
  = inr Sample.up_tree_initialised.
Proof.
  apply (init_deform_weights_keeps_init_weights 0 1 (fun _ _ => 7) (fun f _ _ => f)
           (fun m => m) Sample.up_tree Sample.up_tree_initialised).
  - reflexivity.
  - reflexivity.
Defined.
